(** * The digital bracelet: gesture-to-motion mapping and letter animation

    A shallow embedding of [components/DigitalBracelet.tsx] (the [Bead],
    [DigitalBracelet] and [FloatingLetter] components with their per-frame
    callbacks) and of the few [three.js] helpers they call.

    Numbers.  The source computes with JavaScript numbers.  The embedding keeps
    the finite values as exact rationals and adds [NaN], which a malformed
    hand distance can be; rounding and the two infinities are outside the
    model.  Comparisons with [NaN] are false and
    every arithmetic operation propagates it, as in JavaScript.  Where
    rounding decides how a statement can be put (an end of a range that is
    reached, an approach that stalls), module [Double] runs the source's
    formula on binary64 numbers.

    Renders.  A bead and a floating letter read the motion of the bracelet
    from their props, which [DigitalBracelet] fills from its refs when it
    renders; the callbacks of a frame change the refs and cause no render.
    The statements about beads therefore name the render that handed the
    bead its props. *)

From Stdlib Require Import QArith Qabs Qround Lqa Lia ZArith List Bool String Ascii.
From Stdlib Require PrimFloat.
Import ListNotations.
Local Open Scope Q_scope.

(* ================================================================= *)
(** ** JavaScript numbers *)

Module JS.

Inductive num : Type :=
| Fin (q : Q)
| NaN.

Definition lift2 (f : Q -> Q -> Q) (a b : num) : num :=
  match a, b with
  | Fin p, Fin q => Fin (f p q)
  | _, _ => NaN
  end.

Definition add : num -> num -> num := lift2 Qplus.
Definition sub : num -> num -> num := lift2 Qminus.
Definition mul : num -> num -> num := lift2 Qmult.

(** [a / b].  A zero divisor leaves the finite model (JavaScript answers with
    an infinity, or NaN for 0/0); the embedding answers [NaN].  The source
    guards both of its divisions against a zero divisor. *)
Definition div (a b : num) : num :=
  match a, b with
  | Fin p, Fin q => if Qeq_bool q 0 then NaN else Fin (p / q)
  | _, _ => NaN
  end.

Definition Qltb (p q : Q) : bool := negb (Qle_bool q p).

(** [a > b] and [a < b]: false as soon as one side is NaN. *)
Definition gt (a b : num) : bool :=
  match a, b with
  | Fin p, Fin q => Qltb q p
  | _, _ => false
  end.

Definition lt (a b : num) : bool :=
  match a, b with
  | Fin p, Fin q => Qltb p q
  | _, _ => false
  end.

Definition isNaN (a : num) : bool :=
  match a with
  | NaN => true
  | Fin _ => false
  end.

(** [a || b] on numbers: [b] when [a] is falsy, that is 0 or NaN. *)
Definition or_else (a b : num) : num :=
  match a with
  | Fin p => if Qeq_bool p 0 then b else a
  | NaN => b
  end.

(** [Math.floor], on the finite values. *)
Definition floor (a : num) : option Z :=
  match a with
  | Fin p => Some (Qfloor p)
  | NaN => None
  end.

(** Equality of numbers up to the representation of a fraction. *)
Definition eqv (a b : num) : Prop :=
  match a, b with
  | Fin p, Fin q => p == q
  | NaN, NaN => True
  | _, _ => False
  end.

(** [Array.prototype.slice(start)]: a negative [start] counts from the end,
    and both ends are clamped to the array. *)
Definition slice {A : Type} (start : Z) (l : list A) : list A :=
  let len := Z.of_nat (List.length l) in
  let k := if (start <? 0)%Z then Z.max (len + start) 0 else Z.min start len in
  skipn (Z.to_nat k) l.

End JS.

Declare Scope num_scope.
Delimit Scope num_scope with num.
Bind Scope num_scope with JS.num.
Coercion JS.Fin : Q >-> JS.num.
Infix "+" := JS.add : num_scope.
Infix "-" := JS.sub : num_scope.
Infix "*" := JS.mul : num_scope.
Infix "/" := JS.div : num_scope.
Infix ">?" := JS.gt (at level 70, no associativity) : num_scope.
Infix "<?" := JS.lt (at level 70, no associativity) : num_scope.
Infix "=n=" := JS.eqv (at level 70, no associativity).

(* ================================================================= *)
(** ** The three.js helpers the components call *)

Module THREE.

Module MathUtils.

(** [MathUtils.lerp(x, y, t)] is [(1 - t) * x + t * y]. *)
Definition lerp (x y t : JS.num) : JS.num := ((1 - t) * x + t * y)%num.

End MathUtils.

Module Euler.

Record t : Type := mk { x : JS.num; y : JS.num; z : JS.num }.

End Euler.

Module Vector3.

Record t : Type := mk { x : JS.num; y : JS.num; z : JS.num }.

Definition eqv (a b : t) : Prop :=
  a.(x) =n= b.(x) /\ a.(y) =n= b.(y) /\ a.(z) =n= b.(z).

(** [this.lerp(v, alpha)]: each coordinate gets [+= (v.c - this.c) * alpha]. *)
Definition lerp (this v : t) (alpha : JS.num) : t :=
  {| x := (this.(x) + (v.(x) - this.(x)) * alpha)%num;
     y := (this.(y) + (v.(y) - this.(y)) * alpha)%num;
     z := (this.(z) + (v.(z) - this.(z)) * alpha)%num |}.

Definition multiplyScalar (this : t) (s : JS.num) : t :=
  {| x := (this.(x) * s)%num; y := (this.(y) * s)%num; z := (this.(z) * s)%num |}.

Definition divideScalar (this : t) (s : JS.num) : t :=
  multiplyScalar this (1 / s)%num.

Section Length.

(** [Math.sqrt] on the finite non-negative values; its values are not
    rational in general, so the square root is a parameter of the model. *)
Variable Math_sqrt : Q -> Q.

Definition sqrt (a : JS.num) : JS.num :=
  match a with
  | JS.Fin p => if JS.Qltb p 0 then JS.NaN else JS.Fin (Math_sqrt p)
  | JS.NaN => JS.NaN
  end.

Definition length (this : t) : JS.num :=
  sqrt (this.(x) * this.(x) + this.(y) * this.(y) + this.(z) * this.(z))%num.

(** [normalize()] is [divideScalar(length() || 1)]. *)
Definition normalize (this : t) : t :=
  divideScalar this (JS.or_else (length this) 1).

End Length.

End Vector3.

End THREE.

Infix "=v=" := THREE.Vector3.eqv (at level 70, no associativity).

(* ================================================================= *)
(** ** Data of the components *)

(** [types.ts]. *)
Module Types.

(** A letter's [id] is one of two template strings, [init-${i}] and
    [emit-${Date.now()}-${Math.random()}]; the model keeps their arguments. *)
Inductive LetterId : Type :=
| init (i : nat)
| emit (Date_now : Z) (random : Q).

Record FloatingLetterData : Type := {
  id : LetterId;
  char : option ascii;
  x : JS.num;
  y : JS.num;
  z : JS.num;
  speedX : JS.num;
  speedY : JS.num;
  speedZ : JS.num;
  scale : JS.num
}.

End Types.

(** A scene-graph node, as far as the callbacks touch it. *)
Module Object3D.

Record t : Type := mk { position : THREE.Vector3.t; rotation : THREE.Euler.t }.

End Object3D.

(** The per-frame state [useFrame] hands to a callback; only the clock is read. *)
Record RootState : Type := { clock_elapsedTime : JS.num }.

Module BeadProps.

(** [onEmitLetter] is the one callback prop; the model returns the call as an
    event of the frame instead. *)
Record t : Type := {
  position : THREE.Vector3.t;
  rotationVal : JS.num;
  isScattered : bool;
  scatterIntensity : JS.num;
  index : nat;
  globalRotation : JS.num
}.

End BeadProps.

Module BraceletSceneProps.

Record t : Type := { handDistance : JS.num; isHandPresent : bool }.

End BraceletSceneProps.

(** [App.tsx]: the state the prediction loop writes and the scene reads. *)
Module App.

Record t : Type := { handDistance : JS.num; isHandPresent : bool }.

End App.

(** A hand landmark of the tracker's result. *)
Record Landmark : Type := { lm_x : JS.num; lm_y : JS.num; lm_z : JS.num }.

(** How a turn of the prediction loop ends: it requests the next animation
    frame, or it throws before doing so. *)
Inductive Loop : Type :=
| next_frame
| thrown.

(** The gesture a frame's props amount to, after the branches of the
    bracelet's callback. *)
Inductive Gesture : Type :=
| NoHand
| OpenHand
| Pinch
| InBetween.

(** The [Math.random()] results one entry of [letterConfigs] consumes, in the
    order of the calls. *)
Record ConfigDraws : Type := {
  c_theta : Q; c_phi : Q; c_char : Q; c_rx : Q; c_ry : Q; c_rz : Q
}.

(** One entry of a bead's [letterConfigs]. *)
Record LetterConfig : Type := {
  config_char : option ascii;
  pos : THREE.Vector3.t;
  rot : THREE.Euler.t
}.

(** A glyph of a bead: the [i]-th child of [lettersRef] is rendered from the
    [i]-th entry of [letterConfigs], so the model keeps the two together. *)
Record Letter : Type := { config : LetterConfig; child : Object3D.t }.

(** The mutable part of a mounted [Bead]. *)
Record Bead : Type := {
  letters : list Letter;
  groupRef : Object3D.t;
  lastEmitRef : JS.num
}.

(** The mutable part of a mounted [DigitalBracelet]: its refs, the rotation of
    the ring's group and the [backgroundLetters] state. *)
Record DigitalBracelet : Type := {
  isScatteredRef : bool;
  rotationSpeedRef : JS.num;
  containerRef_rotation_z : JS.num;
  backgroundLetters : list Types.FloatingLetterData
}.

(** The mutable part of a mounted [FloatingLetter]: the [pos] ref and the
    transform of its group. *)
Record FloatingLetter : Type := {
  fl_pos : THREE.Vector3.t;
  fl_ref : Object3D.t
}.

(** The [Math.random()] results one call of [handleEmitLetter] consumes, in
    the order of the calls. *)
Record EmitDraws : Type := {
  u_id : Q; u_char : Q; u_x : Q; u_y : Q; u_speedX : Q; u_speedY : Q; u_speedZ : Q
}.

(** The [Math.random()] results one ambient letter consumes. *)
Record AmbientDraws : Type := {
  a_char : Q; a_x : Q; a_y : Q; a_z : Q;
  a_speedX : Q; a_speedY : Q; a_speedZ : Q; a_scale : Q
}.

(* ================================================================= *)
(** ** Constants and helpers *)

Definition BEAD_COUNT : nat := 12.
Definition BRACELET_RADIUS : JS.num := 3.5.
Definition LETTERS_PER_BEAD : nat := 24.
Definition BEAD_RADIUS : JS.num := 0.6.
Definition ALPHABET : string := "ABCDEFGHIJKLMNOPQRSTUVWXYZ0123456789".

Definition PINCH_THRESHOLD : JS.num := 0.06.
Definition SCATTER_THRESHOLD : JS.num := 0.18.

(** [rnd(min, max)] with [u] the result of its [Math.random()]. *)
Definition rnd (u : Q) (min max : JS.num) : JS.num := (u * (max - min) + min)%num.

(** [ALPHABET[Math.floor(u * ALPHABET.length)]]; out of range is [undefined]. *)
Definition random_char (u : Q) : option ascii :=
  match JS.floor (u * inject_Z (Z.of_nat (String.length ALPHABET)))%num with
  | Some k => if (k <? 0)%Z then None else String.get (Z.to_nat k) ALPHABET
  | None => None
  end.


(** Rational stand-ins for [Math.sin] and [Math.sqrt], to run the model on
    concrete inputs: the cubic Taylor polynomial of the sine and one Newton
    step from 1 toward the square root. *)
Definition sin_approx (p : Q) : Q := p - p * p * p / 6.
Definition sqrt_approx (p : Q) : Q := (1 + p) / 2.

(** A letter index [i] as a number. *)
Definition of_index (i : nat) : JS.num := inject_Z (Z.of_nat i).

(** [l.map((e, i) => f(i, e))], from index [i]. *)
Fixpoint mapi_from {A B : Type} (f : nat -> A -> B) (i : nat) (l : list A) : list B :=
  match l with
  | [] => []
  | a :: l' => f i a :: mapi_from f (S i) l'
  end.

(* ================================================================= *)
(** ** The arithmetic on binary64 numbers *)

(** The three formulas the animation is made of, on the doubles the source
    computes with: [rnd], [THREE.MathUtils.lerp] and one coordinate of
    [THREE.Vector3.lerp].  A decimal literal stands for the nearest double,
    as it does in JavaScript. *)
Module Double.
Import PrimFloat.
Set Warnings "-inexact-float".

Definition rnd (u min max : float) : float := (u * (max - min) + min)%float.

Module MathUtils.

Definition lerp (x y t : float) : float := ((1 - t) * x + t * y)%float.

End MathUtils.

Module Vector3.

Definition lerp_x (this v alpha : float) : float := (this + (v - this) * alpha)%float.

End Vector3.

(** [n] frames of a per-frame step. *)
Fixpoint frames {A : Type} (n : nat) (step : A -> A) (x : A) : A :=
  match n with
  | O => x
  | S n' => frames n' step (step x)
  end.

(** The largest result of [Math.random()], 1 - 2^-53. *)
Definition last_draw : float := 0x1.fffffffffffffp-1%float.

Set Warnings "+inexact-float".
End Double.

(* ================================================================= *)
(** ** The components *)

Section Components.

(** [Math.sin] and [Math.sqrt] on the finite values.  Their values are not
    rational in general; the development holds for whatever they return. *)
Variable Math_sin : Q -> Q.
Variable Math_sqrt : Q -> Q.

Definition sin (a : JS.num) : JS.num :=
  match a with
  | JS.Fin p => JS.Fin (Math_sin p)
  | JS.NaN => JS.NaN
  end.

(** *** Bead *)

(** The body of the [forEach] over the glyphs (part 1 of the callback). *)
Definition Bead_letter (props : BeadProps.t) (state : RootState) (i : nat)
    (l : Letter) : Letter :=
  let config := l.(config) in
  let child := l.(child) in
  let targetPos := config.(pos) in
  if props.(BeadProps.isScattered) then
    let dir := THREE.Vector3.normalize Math_sqrt targetPos in
    let scatterDist :=
      (5 + sin (state.(clock_elapsedTime) * 2 + of_index i) * 2)%num in
    let intensity := props.(BeadProps.scatterIntensity) in
    {| config := config;
       child :=
         {| Object3D.position :=
              THREE.Vector3.lerp child.(Object3D.position)
                {| THREE.Vector3.x :=
                     (targetPos.(THREE.Vector3.x)
                      + dir.(THREE.Vector3.x) * scatterDist * intensity)%num;
                   THREE.Vector3.y :=
                     (targetPos.(THREE.Vector3.y)
                      + dir.(THREE.Vector3.y) * scatterDist * intensity)%num;
                   THREE.Vector3.z :=
                     (targetPos.(THREE.Vector3.z)
                      + dir.(THREE.Vector3.z) * scatterDist * intensity)%num |}
                0.1;
            Object3D.rotation :=
              {| THREE.Euler.x :=
                   (child.(Object3D.rotation).(THREE.Euler.x) + 0.01)%num;
                 THREE.Euler.y :=
                   (child.(Object3D.rotation).(THREE.Euler.y) + 0.01)%num;
                 THREE.Euler.z := child.(Object3D.rotation).(THREE.Euler.z) |} |} |}
  else
    {| config := config;
       child :=
         {| Object3D.position :=
              THREE.Vector3.lerp child.(Object3D.position) targetPos 0.15;
            Object3D.rotation :=
              {| THREE.Euler.x :=
                   THREE.MathUtils.lerp
                     child.(Object3D.rotation).(THREE.Euler.x)
                     config.(rot).(THREE.Euler.x) 0.1;
                 THREE.Euler.y :=
                   THREE.MathUtils.lerp
                     child.(Object3D.rotation).(THREE.Euler.y)
                     config.(rot).(THREE.Euler.y) 0.1;
                 THREE.Euler.z := child.(Object3D.rotation).(THREE.Euler.z) |} |} |}.

(** Part 2 of the callback: the bead turns about its own axes. *)
Definition Bead_rotate (props : BeadProps.t) (g : Object3D.t) : Object3D.t :=
  {| Object3D.position := g.(Object3D.position);
     Object3D.rotation :=
       {| THREE.Euler.x :=
            (g.(Object3D.rotation).(THREE.Euler.x)
             + props.(BeadProps.rotationVal) * 0.1)%num;
          THREE.Euler.y :=
            (g.(Object3D.rotation).(THREE.Euler.y)
             + props.(BeadProps.rotationVal) * 0.05)%num;
          THREE.Euler.z := g.(Object3D.rotation).(THREE.Euler.z) |} |}.

(** Part 3 of the callback: the origin handed to [onEmitLetter], if it is
    called, and the new [lastEmitRef].  [worldPos] is what
    [groupRef.current.getWorldPosition] writes. *)
Definition Bead_emit (props : BeadProps.t) (state : RootState)
    (worldPos : THREE.Vector3.t) (lastEmit : JS.num)
  : option THREE.Vector3.t * JS.num :=
  if (props.(BeadProps.rotationVal) >? 0.01)%num
     && negb props.(BeadProps.isScattered) then
    let now := state.(clock_elapsedTime) in
    if (now - lastEmit >? 1.0 / (props.(BeadProps.rotationVal) * 10 + 0.1))%num
    then (Some worldPos, now)
    else (None, lastEmit)
  else (None, lastEmit).

(** The [useFrame] callback of a mounted [Bead].  It is called with the frame's
    state and delta time and declares the state only. *)
Definition Bead_useFrame (props : BeadProps.t) (state : RootState)
    (delta : JS.num) (worldPos : THREE.Vector3.t) (b : Bead)
  : Bead * option THREE.Vector3.t :=
  let e := Bead_emit props state worldPos b.(lastEmitRef) in
  ({| letters := mapi_from (Bead_letter props state) 0 b.(letters);
      groupRef := Bead_rotate props b.(groupRef);
      lastEmitRef := snd e |},
   fst e).

(** *** DigitalBracelet *)

(** Before the first frame: the refs start at [false] and [0], nothing is
    rotated and [backgroundLetters] is empty. *)
Definition DigitalBracelet_mount : DigitalBracelet :=
  {| isScatteredRef := false;
     rotationSpeedRef := 0;
     containerRef_rotation_z := 0;
     backgroundLetters := [] |}.

(** The ambient letter pushed at turn [i] of the mount effect's loop. *)
Definition ambient_letter (i : nat) (u : AmbientDraws) : Types.FloatingLetterData :=
  {| Types.id := Types.init i;
     Types.char := random_char u.(a_char);
     Types.x := rnd u.(a_x) (-10) 10;
     Types.y := rnd u.(a_y) (-10) 10;
     Types.z := rnd u.(a_z) (-15) (-5);
     Types.speedX := rnd u.(a_speedX) (-0.02) 0.02;
     Types.speedY := rnd u.(a_speedY) (-0.02) 0.02;
     Types.speedZ := rnd u.(a_speedZ) (-0.01) 0.01;
     Types.scale := rnd u.(a_scale) 0.5 1.5 |}.

Definition initialBg (draws : nat -> AmbientDraws) : list Types.FloatingLetterData :=
  map (fun i => ambient_letter i (draws i)) (seq 0 50).

(** The mount effect: [setBackgroundLetters(initialBg)]. *)
Definition DigitalBracelet_useEffect (draws : nat -> AmbientDraws)
    (s : DigitalBracelet) : DigitalBracelet :=
  {| isScatteredRef := s.(isScatteredRef);
     rotationSpeedRef := s.(rotationSpeedRef);
     containerRef_rotation_z := s.(containerRef_rotation_z);
     backgroundLetters := initialBg draws |}.

Definition newLetter (origin : THREE.Vector3.t) (Date_now : Z) (u : EmitDraws)
  : Types.FloatingLetterData :=
  {| Types.id := Types.emit Date_now u.(u_id);
     Types.char := random_char u.(u_char);
     Types.x := (origin.(THREE.Vector3.x) + rnd u.(u_x) (-0.2) 0.2)%num;
     Types.y := (origin.(THREE.Vector3.y) + rnd u.(u_y) (-0.2) 0.2)%num;
     Types.z := origin.(THREE.Vector3.z);
     Types.speedX := rnd u.(u_speedX) (-0.05) 0.05;
     Types.speedY := rnd u.(u_speedY) 0.05 0.15;
     Types.speedZ := rnd u.(u_speedZ) (-0.05) 0.05;
     Types.scale := 1.0 |}.

(** [handleEmitLetter(origin)], as the update of [backgroundLetters] it asks for:
    [prev => [...prev.slice(-80), newLetter]]. *)
Definition handleEmitLetter (origin : THREE.Vector3.t) (Date_now : Z) (u : EmitDraws)
    (prev : list Types.FloatingLetterData) : list Types.FloatingLetterData :=
  JS.slice (-80) prev ++ [newLetter origin Date_now u].

(** The [useFrame] callback of a mounted [DigitalBracelet]. *)
Definition DigitalBracelet_useFrame (props : BraceletSceneProps.t)
    (state : RootState) (delta : JS.num) (s : DigitalBracelet) : DigitalBracelet :=
  let handDistance := props.(BraceletSceneProps.handDistance) in
  let refs :=
    if props.(BraceletSceneProps.isHandPresent) then
      if (handDistance >? SCATTER_THRESHOLD)%num then
        (true, THREE.MathUtils.lerp s.(rotationSpeedRef) 0 0.1)
      else if (handDistance <? PINCH_THRESHOLD)%num then
        (false, THREE.MathUtils.lerp s.(rotationSpeedRef) 2.0 0.05)
      else
        (false, THREE.MathUtils.lerp s.(rotationSpeedRef) 0 0.05)
    else
      (false, THREE.MathUtils.lerp s.(rotationSpeedRef) 0.2 0.05) in
  {| isScatteredRef := fst refs;
     rotationSpeedRef := snd refs;
     containerRef_rotation_z :=
       (s.(containerRef_rotation_z) + snd refs * delta * 0.5)%num;
     backgroundLetters := s.(backgroundLetters) |}.

(** The props a render of [DigitalBracelet] hands to the bead at ring
    position [position] with index [index]: the refs are read as they stand
    at that render. *)
Definition DigitalBracelet_render_Bead (props : BraceletSceneProps.t)
    (s : DigitalBracelet) (position : THREE.Vector3.t) (index : nat) : BeadProps.t :=
  {| BeadProps.position := position;
     BeadProps.rotationVal := s.(rotationSpeedRef);
     BeadProps.isScattered := s.(isScatteredRef);
     BeadProps.scatterIntensity :=
       if props.(BraceletSceneProps.isHandPresent)
       then (props.(BraceletSceneProps.handDistance) * 5)%num
       else 0;
     BeadProps.index := index;
     BeadProps.globalRotation := 0 |}.

(** *** FloatingLetter *)

Definition FloatingLetter_mount (data : Types.FloatingLetterData) : FloatingLetter :=
  let p := {| THREE.Vector3.x := data.(Types.x);
              THREE.Vector3.y := data.(Types.y);
              THREE.Vector3.z := data.(Types.z) |} in
  {| fl_pos := p;
     fl_ref := {| Object3D.position := p;
                  Object3D.rotation := {| THREE.Euler.x := 0;
                                          THREE.Euler.y := 0;
                                          THREE.Euler.z := 0 |} |} |}.

(** The [useFrame] callback of a mounted [FloatingLetter]. *)
Definition FloatingLetter_useFrame (data : Types.FloatingLetterData)
    (globalRotationSpeed : JS.num) (state : RootState) (delta : JS.num)
    (f : FloatingLetter) : FloatingLetter :=
  let p := {| THREE.Vector3.x := (f.(fl_pos).(THREE.Vector3.x) + data.(Types.speedX))%num;
              THREE.Vector3.y := (f.(fl_pos).(THREE.Vector3.y) + data.(Types.speedY))%num;
              THREE.Vector3.z := (f.(fl_pos).(THREE.Vector3.z) + data.(Types.speedZ))%num |} in
  {| fl_pos := p;
     fl_ref :=
       {| Object3D.position := p;
          Object3D.rotation :=
            {| THREE.Euler.x :=
                 (f.(fl_ref).(Object3D.rotation).(THREE.Euler.x) + delta * 0.2)%num;
               THREE.Euler.y :=
                 (f.(fl_ref).(Object3D.rotation).(THREE.Euler.y)
                  + (delta * 0.2 + globalRotationSpeed * 0.05))%num;
               THREE.Euler.z := f.(fl_ref).(Object3D.rotation).(THREE.Euler.z) |} |} |}.

(** *** Runs of frames *)

(** What one frame hands to the bracelet's callback: the props of the last
    render, the frame's state and its delta time. *)
Record FrameInput : Type := {
  f_props : BraceletSceneProps.t;
  f_state : RootState;
  f_delta : JS.num
}.

Definition DigitalBracelet_frames (fs : list FrameInput) (s : DigitalBracelet)
  : DigitalBracelet :=
  fold_left (fun s f => DigitalBracelet_useFrame f.(f_props) f.(f_state) f.(f_delta) s)
    fs s.

(** A frame on which no hand is present, whatever distance is left over. *)
Definition absent (d : JS.num) : BraceletSceneProps.t :=
  {| BraceletSceneProps.handDistance := d; BraceletSceneProps.isHandPresent := false |}.

Definition present (d : JS.num) : BraceletSceneProps.t :=
  {| BraceletSceneProps.handDistance := d; BraceletSceneProps.isHandPresent := true |}.

Definition all_absent (fs : list FrameInput) : bool :=
  forallb (fun f => negb f.(f_props).(BraceletSceneProps.isHandPresent)) fs.

(** The frame of a run on which no hand is present: the left-over distance,
    the frame's state and its delta time. *)
Definition absent_frame (f : JS.num * RootState * JS.num) : FrameInput :=
  {| f_props := absent (fst (fst f)); f_state := snd (fst f); f_delta := snd f |}.

(** One emission event: the origin, [Date.now()] and the random draws. *)
Definition EmitEvent : Type := (THREE.Vector3.t * Z * EmitDraws)%type.

Definition emissions (es : list EmitEvent) (pool : list Types.FloatingLetterData)
  : list Types.FloatingLetterData :=
  fold_left (fun pool e => handleEmitLetter (fst (fst e)) (snd (fst e)) (snd e) pool)
    es pool.

(** A glyph over a run of frames of its bead, each with the props and the
    state the bead's callback sees. *)
Definition Bead_letter_frames (fs : list (BeadProps.t * RootState)) (i : nat)
    (l : Letter) : Letter :=
  fold_left (fun l f => Bead_letter (fst f) (snd f) i l) fs l.

(** Props of a bead as far as a glyph reads them. *)
Definition letter_props (scattered : bool) (intensity : JS.num) : BeadProps.t :=
  {| BeadProps.position := {| THREE.Vector3.x := 0; THREE.Vector3.y := 0; THREE.Vector3.z := 0 |};
     BeadProps.rotationVal := 0;
     BeadProps.isScattered := scattered;
     BeadProps.scatterIntensity := intensity;
     BeadProps.index := O;
     BeadProps.globalRotation := 0 |}.

(** A frame of a scattered bead with a finite intensity, at a finite time. *)
Definition scatter_frame (f : Q * Q) : BeadProps.t * RootState :=
  (letter_props true (fst f), {| clock_elapsedTime := snd f |}).

(** A frame of a reforming bead. *)
Definition reform_frame (f : JS.num * RootState) : BeadProps.t * RootState :=
  (letter_props false (fst f), snd f).

Definition fin3 (p : Q * Q * Q) : THREE.Vector3.t :=
  {| THREE.Vector3.x := fst (fst p);
     THREE.Vector3.y := snd (fst p);
     THREE.Vector3.z := snd p |}.

(** [v] is finite and its Euclidean distance to the finite point [p] is below
    [eps] (for a positive [eps]; stated on the squares). *)
Definition within (eps : Q) (v : THREE.Vector3.t) (p : Q * Q * Q) : Prop :=
  match v with
  | {| THREE.Vector3.x := JS.Fin a; THREE.Vector3.y := JS.Fin b; THREE.Vector3.z := JS.Fin c |} =>
      (a - fst (fst p)) * (a - fst (fst p))
      + (b - snd (fst p)) * (b - snd (fst p))
      + (c - snd p) * (c - snd p) < eps * eps
  | _ => False
  end.

(** A glyph as it is mounted: [<Text position={config.pos} rotation={config.rot}>]. *)
Definition Letter_mount (c : LetterConfig) : Letter :=
  {| config := c;
     child := {| Object3D.position := c.(pos); Object3D.rotation := c.(rot) |} |}.



(** *** Sample inputs *)

(** One second of frames at 30 frames per second with no hand present; the
    props are the ones [App] starts with ([handDistance] 0.1). *)
Definition idle_second : list FrameInput :=
  map (fun k => {| f_props := absent 0.1;
                   f_state := {| clock_elapsedTime := inject_Z (Z.of_nat k) / 30 |};
                   f_delta := 1 / 30 |})
      (seq 1 30).

(** A world position to emit from: the ring position of bead 0. *)
Definition origin0 : THREE.Vector3.t := fin3 (3.5, 0, 0).

(** Every [Math.random()] of an emission returning 0.5. *)
Definition half_draws : EmitDraws :=
  {| u_id := 0.5; u_char := 0.5; u_x := 0.5; u_y := 0.5;
     u_speedX := 0.5; u_speedY := 0.5; u_speedZ := 0.5 |}.

(** Every [Math.random()] of an ambient letter returning 0.5. *)
Definition half_ambient_draws : AmbientDraws :=
  {| a_char := 0.5; a_x := 0.5; a_y := 0.5; a_z := 0.5;
     a_speedX := 0.5; a_speedY := 0.5; a_speedZ := 0.5; a_scale := 0.5 |}.





(** A hand of 21 landmarks with the thumb tip at (0.40, 0.50) and the index
    tip at (0.43, 0.54), 0.05 apart. *)
Definition sample_hand : list Landmark :=
  let o := {| lm_x := 0; lm_y := 0; lm_z := 0 |} in
  repeat o 4 ++ [{| lm_x := 0.40; lm_y := 0.50; lm_z := 0.1 |}]
  ++ repeat o 3 ++ [{| lm_x := 0.43; lm_y := 0.54; lm_z := -0.1 |}]
  ++ repeat o 12.

(** *** Mounting a bead *)

Variable Math_cos : Q -> Q.

Definition cos (a : JS.num) : JS.num :=
  match a with
  | JS.Fin p => JS.Fin (Math_cos p)
  | JS.NaN => JS.NaN
  end.

(** [Math.PI]: the double nearest to pi, 884279719003555 / 2^48. *)
Definition Math_PI : Q := 884279719003555 # 281474976710656.

(** [getPointOnSphere(r)], with the draws of its two [rnd] calls. *)
Definition getPointOnSphere (u_theta u_phi : Q) (r : JS.num) : THREE.Vector3.t :=
  let theta := rnd u_theta 0 (Math_PI * 2)%num in
  let phi := rnd u_phi 0 Math_PI in
  {| THREE.Vector3.x := (r * sin phi * cos theta)%num;
     THREE.Vector3.y := (r * sin phi * sin theta)%num;
     THREE.Vector3.z := (r * cos phi)%num |}.

(** One turn of the [map] that builds [letterConfigs]. *)
Definition letterConfig (u : ConfigDraws) : LetterConfig :=
  {| config_char := random_char u.(c_char);
     pos := getPointOnSphere u.(c_theta) u.(c_phi) BEAD_RADIUS;
     rot := {| THREE.Euler.x := rnd u.(c_rx) 0 Math_PI;
               THREE.Euler.y := rnd u.(c_ry) 0 Math_PI;
               THREE.Euler.z := rnd u.(c_rz) 0 Math_PI |} |}.

Definition letterConfigs (draws : nat -> ConfigDraws) : list LetterConfig :=
  map (fun i => letterConfig (draws i)) (seq 0 LETTERS_PER_BEAD).

(** A bead as it is mounted at ring position [position]: one glyph per
    config, the group at [position] and not turned, [lastEmitRef] at 0. *)
Definition Bead_mount (position : THREE.Vector3.t) (draws : nat -> ConfigDraws) : Bead :=
  {| letters := map Letter_mount (letterConfigs draws);
     groupRef := {| Object3D.position := position;
                    Object3D.rotation := {| THREE.Euler.x := 0; THREE.Euler.y := 0;
                                            THREE.Euler.z := 0 |} |};
     lastEmitRef := 0 |}.

(** What one frame hands to a bead's callback: the props of the last render,
    the frame's state and delta time, and the bead's world position. *)
Definition BeadFrame : Type := (BeadProps.t * RootState * JS.num * THREE.Vector3.t)%type.

Definition Bead_frame (f : BeadFrame) (b : Bead) : Bead * option THREE.Vector3.t :=
  Bead_useFrame (fst (fst (fst f))) (snd (fst (fst f))) (snd (fst f)) (snd f) b.

(** A bead over a run of frames, with the origins it emitted from, in order. *)
Definition Bead_frames (fs : list BeadFrame) (b : Bead) : Bead * list THREE.Vector3.t :=
  fold_left
    (fun acc f =>
       let r := Bead_frame f (fst acc) in
       (fst r, snd acc ++ match snd r with Some o => [o] | None => [] end))
    fs (b, []).



(** *** Runs of a floating letter *)

(** What one frame hands to a floating letter's callback: the
    [globalRotationSpeed] of the last render, the frame's state and delta. *)
Definition FloatingLetter_frames (data : Types.FloatingLetterData)
    (fs : list (JS.num * RootState * JS.num)) (f : FloatingLetter) : FloatingLetter :=
  fold_left
    (fun f x => FloatingLetter_useFrame data (fst (fst x)) (snd (fst x)) (snd x) f)
    fs f.

(** *** Gestures *)

Definition gesture_of (props : BraceletSceneProps.t) : Gesture :=
  if props.(BraceletSceneProps.isHandPresent) then
    if (props.(BraceletSceneProps.handDistance) >? SCATTER_THRESHOLD)%num then OpenHand
    else if (props.(BraceletSceneProps.handDistance) <? PINCH_THRESHOLD)%num then Pinch
    else InBetween
  else NoHand.

(** The speed a gesture's branch approaches, and the factor of its step. *)
Definition gesture_target (g : Gesture) : Q :=
  match g with
  | NoHand => 0.2
  | OpenHand => 0
  | Pinch => 2.0
  | InBetween => 0
  end.

Definition gesture_factor (g : Gesture) : Q :=
  match g with
  | OpenHand => 0.1
  | _ => 0.05
  end.

Definition Gesture_eqb (g h : Gesture) : bool :=
  match g, h with
  | NoHand, NoHand | OpenHand, OpenHand | Pinch, Pinch | InBetween, InBetween => true
  | _, _ => false
  end.

(** The numbers [M] of the bound [approach] that go with the two factors: 19
    with 0.05, 9 with 0.1. *)
Definition approach_rate (g : Gesture) : Q :=
  match g with
  | OpenHand => 9
  | _ => 19
  end.

(** Every frame of the run amounts to the gesture [g]. *)
Definition sustained (g : Gesture) (fs : list FrameInput) : bool :=
  forallb (fun f => Gesture_eqb (gesture_of f.(f_props)) g) fs.

(** Every delta time of the run is a finite number that is not negative. *)
Definition deltas_nonneg (fs : list FrameInput) : bool :=
  forallb (fun f => match f.(f_delta) with
                    | JS.Fin d => Qle_bool 0 d
                    | JS.NaN => false
                    end) fs.

(** The frame time a run adds up to. *)
Definition elapsed (fs : list FrameInput) : JS.num :=
  fold_left (fun t f => (t + f.(f_delta))%num) fs 0.

(** A result of [Math.random()]: in [0, 1). *)
Definition unit_draw (u : Q) : bool := Qle_bool 0 u && JS.Qltb u 1.

Definition ambient_draws_ok (u : AmbientDraws) : bool :=
  unit_draw u.(a_char) && unit_draw u.(a_x) && unit_draw u.(a_y) && unit_draw u.(a_z)
  && unit_draw u.(a_speedX) && unit_draw u.(a_speedY) && unit_draw u.(a_speedZ)
  && unit_draw u.(a_scale).

Definition emit_draws_ok (u : EmitDraws) : bool :=
  unit_draw u.(u_id) && unit_draw u.(u_char) && unit_draw u.(u_x) && unit_draw u.(u_y)
  && unit_draw u.(u_speedX) && unit_draw u.(u_speedY) && unit_draw u.(u_speedZ).

(** [a] is a finite number in [lo, hi). *)
Definition in_range (a : JS.num) (lo hi : Q) : Prop :=
  match a with
  | JS.Fin q => lo <= q < hi
  | JS.NaN => False
  end.

(** [a] is a finite number in [lo, hi], both ends included. *)
Definition in_closed_range (a : JS.num) (lo hi : Q) : Prop :=
  match a with
  | JS.Fin q => lo <= q <= hi
  | JS.NaN => False
  end.

(** The letter an emission event inserts. *)
Definition letter_of (e : EmitEvent) : Types.FloatingLetterData :=
  newLetter (fst (fst e)) (snd (fst e)) (snd e).

(** The bound a sustained gesture keeps on the speed [x] that approaches the
    target [a]: after [k] frames the error is within [D] and within
    [M D / (M + k)]. *)
Definition approach (M D : Q) (k : nat) (x a : Q) : Prop :=
  - D <= x - a <= D
  /\ - (M * D) <= (x - a) * (M + inject_Z (Z.of_nat k)) <= M * D.

(** *** App *)

(** The state [App] starts with. *)
Definition App_mount : App.t :=
  {| App.handDistance := 0.1; App.isHandPresent := false |}.

(** [Math.pow(a, 2)]. *)
Definition pow2 (a : JS.num) : JS.num := (a * a)%num.

(** One turn of [predict].  [ready] is its guard (the video has data and the
    landmarker is there), [landmarks] is [results.landmarks].  A first hand
    with no landmark 4 or 8 makes the turn throw after [setIsHandPresent(true)]. *)
Definition predict (ready : bool) (landmarks : list (list Landmark)) (st : App.t)
  : App.t * Loop :=
  if ready then
    match landmarks with
    | hand :: _ =>
        match nth_error hand 4, nth_error hand 8 with
        | Some thumbTip, Some indexTip =>
            ({| App.handDistance :=
                  THREE.Vector3.sqrt Math_sqrt
                    (pow2 (thumbTip.(lm_x) - indexTip.(lm_x))
                     + pow2 (thumbTip.(lm_y) - indexTip.(lm_y)))%num;
                App.isHandPresent := true |},
             next_frame)
        | _, _ =>
            ({| App.handDistance := st.(App.handDistance); App.isHandPresent := true |},
             thrown)
        end
    | [] =>
        ({| App.handDistance := st.(App.handDistance); App.isHandPresent := false |},
         next_frame)
    end
  else (st, next_frame).

(** A turn of the loop as its inputs: the guard and [results.landmarks]. *)
Definition Turn : Type := (bool * list (list Landmark))%type.

(** The state after a run of turns that do not throw. *)
Definition predict_turns (turns : list Turn) (st : App.t) : App.t :=
  fold_left (fun st t => fst (predict (fst t) (snd t) st)) turns st.

(** No turn of the run has a hand in its result. *)
Definition handless (turns : list Turn) : bool :=
  forallb (fun t : Turn => match snd t with [] => true | _ :: _ => false end) turns.

(** The props [App] renders the bracelet with. *)
Definition App_render (st : App.t) : BraceletSceneProps.t :=
  {| BraceletSceneProps.handDistance := st.(App.handDistance);
     BraceletSceneProps.isHandPresent := st.(App.isHandPresent) |}.

(** The two gesture hints of the overlay are lit under these conditions. *)
Definition pinch_hint (st : App.t) : bool :=
  (st.(App.handDistance) <? 0.06)%num && st.(App.isHandPresent).

Definition open_hint (st : App.t) : bool :=
  (st.(App.handDistance) >? 0.18)%num && st.(App.isHandPresent).

(* ================================================================= *)
(** ** The specification's vocabulary *)

(** "Exponentially approaches target with factor f":
    [value := value + (target - value) * f]. *)
Definition smooth (value target f : JS.num) : JS.num :=
  (value + (target - value) * f)%num.

Definition smooth3 (value target : THREE.Vector3.t) (f : JS.num) : THREE.Vector3.t :=
  {| THREE.Vector3.x := smooth value.(THREE.Vector3.x) target.(THREE.Vector3.x) f;
     THREE.Vector3.y := smooth value.(THREE.Vector3.y) target.(THREE.Vector3.y) f;
     THREE.Vector3.z := smooth value.(THREE.Vector3.z) target.(THREE.Vector3.z) f |}.

Record MotionState : Type := { rotationSpeed : JS.num; scattered : bool }.

Definition motionState (s : DigitalBracelet) : MotionState :=
  {| rotationSpeed := s.(rotationSpeedRef); scattered := s.(isScatteredRef) |}.

(** The four-branch policy of the Gesture-to-Motion Mapper, in the priority
    order the specification lists. *)
Definition mapper_policy (present : bool) (distance : JS.num) (m : MotionState)
  : MotionState :=
  if negb present then
    {| rotationSpeed := smooth m.(rotationSpeed) 0.2 0.05; scattered := false |}
  else if (distance >? 0.18)%num then
    {| rotationSpeed := smooth m.(rotationSpeed) 0 0.1; scattered := true |}
  else if (distance <? 0.06)%num then
    {| rotationSpeed := smooth m.(rotationSpeed) 2.0 0.05; scattered := false |}
  else
    {| rotationSpeed := smooth m.(rotationSpeed) 0 0.05; scattered := false |}.



(** The emission interval, in seconds, at a finite rotation speed. *)
Definition emission_interval (r : Q) : Q := 1 / (r * 10 + 0.1).

(* ================================================================= *)
(** ** Numbers: basic facts *)

Lemma eqv_refl (a : JS.num) : a =n= a.
Proof. destruct a; simpl; [reflexivity | exact I]. Qed.

Lemma eqv_sym (a b : JS.num) : a =n= b -> b =n= a.
Proof. destruct a, b; simpl; auto. intros H; symmetry; exact H. Qed.

Lemma eqv_trans (a b c : JS.num) : a =n= b -> b =n= c -> a =n= c.
Proof.
  destruct a, b, c; simpl; try tauto.
  intros H1 H2. rewrite H1. exact H2.
Qed.

Lemma Qltb_lt (p q : Q) : JS.Qltb p q = true <-> p < q.
Proof.
  unfold JS.Qltb. rewrite negb_true_iff.
  split.
  - intros H. apply Qnot_le_lt. intros Hle.
    apply Qle_bool_iff in Hle. congruence.
  - intros H. destruct (Qle_bool q p) eqn:E; [|reflexivity].
    apply Qle_bool_iff in E. lra.
Qed.

Lemma Qltb_ge (p q : Q) : JS.Qltb p q = false <-> q <= p.
Proof.
  unfold JS.Qltb. rewrite negb_false_iff. apply Qle_bool_iff.
Qed.



(** On finite numbers [MathUtils.lerp] is the smoothing step. *)
Lemma lerp_smooth (x y t : JS.num) :
  THREE.MathUtils.lerp x y t =n= smooth x y t.
Proof.
  destruct x as [x|], y as [y|], t as [t|]; simpl; try exact I.
  ring.
Qed.

Lemma Vector3_lerp_smooth3 (v w : THREE.Vector3.t) (f : JS.num) :
  THREE.Vector3.lerp v w f = smooth3 v w f.
Proof. reflexivity. Qed.

(* ================================================================= *)
(** ** The Gesture-to-Motion Mapper *)

(** The refs after a frame do not depend on the frame's state or delta time,
    nor on the ring rotation or the pool. *)
Lemma useFrame_motionState props state delta s :
  motionState (DigitalBracelet_useFrame props state delta s)
  = motionState
      (DigitalBracelet_useFrame props {| clock_elapsedTime := 0 |} 0
         {| isScatteredRef := s.(isScatteredRef);
            rotationSpeedRef := s.(rotationSpeedRef);
            containerRef_rotation_z := 0;
            backgroundLetters := [] |}).
Proof. reflexivity. Qed.

(** C1.  On every frame the bracelet's callback updates the refs by the
    four-branch priority policy: no hand: not scattered, one smoothing step
    toward 0.2 with factor 0.05; otherwise distance > 0.18: scattered, one
    step toward 0 with factor 0.1; otherwise distance < 0.06: not scattered,
    one step toward 2.0 with factor 0.05; otherwise: not scattered, one step
    toward 0 with factor 0.05.  The speed is always one smoothing step from its
    previous value, never an assignment of the target. *)
Theorem C1_mapper_four_branch_policy :
  forall (props : BraceletSceneProps.t) (state : RootState) (delta : JS.num)
         (s : DigitalBracelet),
    let m' := motionState (DigitalBracelet_useFrame props state delta s) in
    let p := mapper_policy props.(BraceletSceneProps.isHandPresent)
               props.(BraceletSceneProps.handDistance) (motionState s) in
    m'.(scattered) = p.(scattered) /\ m'.(rotationSpeed) =n= p.(rotationSpeed).
Proof.
  intros [d present] state delta s; cbn zeta.
  unfold DigitalBracelet_useFrame, mapper_policy, motionState,
    SCATTER_THRESHOLD, PINCH_THRESHOLD; cbn [BraceletSceneProps.isHandPresent
    BraceletSceneProps.handDistance rotationSpeed scattered isScatteredRef
    rotationSpeedRef].
  destruct present; cbn [negb].
  - destruct (d >? 0.18)%num; [|destruct (d <? 0.06)%num];
      cbn [fst snd rotationSpeed scattered]; split;
      try reflexivity; apply lerp_smooth.
  - cbn [fst snd rotationSpeed scattered]; split;
      [reflexivity | apply lerp_smooth].
Qed.

(** One frame keeps a finite speed within [0, 2], whatever the hand signal,
    NaN included. *)
Lemma useFrame_speed_bounded props state delta s r :
  s.(rotationSpeedRef) = JS.Fin r -> 0 <= r <= 2 ->
  exists r', (DigitalBracelet_useFrame props state delta s).(rotationSpeedRef) = JS.Fin r'
             /\ 0 <= r' <= 2.
Proof.
  intros Hr Hb. destruct props as [d present].
  unfold DigitalBracelet_useFrame;
    cbn [BraceletSceneProps.isHandPresent BraceletSceneProps.handDistance
         rotationSpeedRef].
  rewrite Hr.
  destruct present;
    [destruct (d >? SCATTER_THRESHOLD)%num;
       [|destruct (d <? PINCH_THRESHOLD)%num]|];
    cbv [snd THREE.MathUtils.lerp JS.add JS.sub JS.mul JS.lift2];
    eexists; (split; [reflexivity | lra]).
Qed.

Lemma frames_speed_bounded fs : forall s r,
  s.(rotationSpeedRef) = JS.Fin r -> 0 <= r <= 2 ->
  exists r', (DigitalBracelet_frames fs s).(rotationSpeedRef) = JS.Fin r'
             /\ 0 <= r' <= 2.
Proof.
  induction fs as [|f fs IH]; intros s r Hr Hb.
  - exists r. split; [exact Hr | exact Hb].
  - destruct (useFrame_speed_bounded f.(f_props) f.(f_state) f.(f_delta) s r Hr Hb)
      as (r1 & Hr1 & Hb1).
    exact (IH _ r1 Hr1 Hb1).
Qed.

(** C2.  Starting from the mounted bracelet (speed 0), after any sequence of
    frames, with any distances (NaN included) and any presence flags, the
    rotation speed is a finite number within [0, 2.0]. *)
Theorem C2_rotation_speed_within_0_2 :
  forall fs : list FrameInput,
    exists r : Q,
      (DigitalBracelet_frames fs DigitalBracelet_mount).(rotationSpeedRef) = JS.Fin r
      /\ 0 <= r <= 2.0.
Proof.
  intros fs.
  destruct (frames_speed_bounded fs DigitalBracelet_mount 0) as (r & Hr & Hb).
  - reflexivity.
  - lra.
  - exists r. split; [exact Hr | lra].
Qed.

(** With no hand present the refs after a frame are a function of the refs
    before it alone. *)
Lemma absent_useFrame_motionState d1 d2 st1 st2 dl1 dl2 s1 s2 :
  motionState s1 = motionState s2 ->
  motionState (DigitalBracelet_useFrame (absent d1) st1 dl1 s1)
  = motionState (DigitalBracelet_useFrame (absent d2) st2 dl2 s2).
Proof.
  unfold motionState, DigitalBracelet_useFrame, absent; cbn.
  intros H. injection H as Hr Hs. rewrite Hr. reflexivity.
Qed.

Lemma absent_frames_motionState
    (l : list ((JS.num * RootState * JS.num) * (JS.num * RootState * JS.num))) :
  forall s1 s2,
    motionState s1 = motionState s2 ->
    motionState (DigitalBracelet_frames (map (fun p => absent_frame (fst p)) l) s1)
    = motionState (DigitalBracelet_frames (map (fun p => absent_frame (snd p)) l) s2).
Proof.
  induction l as [|[f1 f2] l IH]; intros s1 s2 H.
  - exact H.
  - cbn [map DigitalBracelet_frames fold_left fst snd].
    apply IH. apply absent_useFrame_motionState. exact H.
Qed.

(** C10.  With no hand present the mapper does not read the distance: two
    runs from the same state whose frames all have present = false, with
    arbitrary distances (and frame times) in each, end with the same rotation
    speed and the same scatter flag, and a render without a hand hands every
    bead the scatter intensity 0. *)
Theorem C10_absent_hand_ignores_distance :
  forall (s : DigitalBracelet)
         (l : list ((JS.num * RootState * JS.num) * (JS.num * RootState * JS.num))),
    let run1 := DigitalBracelet_frames (map (fun p => absent_frame (fst p)) l) s in
    let run2 := DigitalBracelet_frames (map (fun p => absent_frame (snd p)) l) s in
    run1.(rotationSpeedRef) = run2.(rotationSpeedRef)
    /\ run1.(isScatteredRef) = run2.(isScatteredRef)
    /\ forall (d : JS.num) (s' : DigitalBracelet) (position : THREE.Vector3.t)
              (index : nat),
         (DigitalBracelet_render_Bead (absent d) s' position index).(BeadProps.scatterIntensity)
         = JS.Fin 0.
Proof.
  intros s l run1 run2.
  pose proof (absent_frames_motionState l s s eq_refl) as H.
  unfold motionState in H. injection H as Hr Hs.
  split; [exact Hr | split; [exact Hs | reflexivity]].
Qed.

(* ================================================================= *)
(** ** The Letter Emission Controller *)

(** Past the gate the interval is a finite number: the divisor exceeds 0.2. *)
Lemma interval_finite (r : Q) :
  0.01 < r ->
  (1.0 / (JS.Fin r * 10 + 0.1))%num = JS.Fin (1.0 / (r * 10 + 0.1))
  /\ 1.0 / (r * 10 + 0.1) == emission_interval r.
Proof.
  intros Hr.
  cbv [JS.div JS.add JS.mul JS.lift2].
  destruct (Qeq_bool (r * 10 + 0.1) 0) eqn:E.
  - apply Qeq_bool_iff in E. lra.
  - split; [reflexivity|]. unfold emission_interval. 
    unfold Qdiv. ring.
Qed.

(** [>] on finite numbers is the order of the rationals. *)
Lemma gt_Fin (p q : Q) : (JS.Fin p >? JS.Fin q)%num = true <-> q < p.
Proof. apply Qltb_lt. Qed.

(** A frame either emits at the world position and resets [lastEmitRef] to the
    frame's time, or emits nothing and leaves it. *)
Lemma Bead_emit_cases props state w last :
  Bead_emit props state w last = (Some w, state.(clock_elapsedTime))
  \/ Bead_emit props state w last = (None, last).
Proof.
  unfold Bead_emit.
  destruct (_ && _); [|right; reflexivity].
  destruct (_ >? _)%num; [left|right]; reflexivity.
Qed.

(** It emits exactly when the speed is past the gate, the bead is not
    scattered and the time since the last emission exceeds the interval. *)
Lemma Bead_emit_iff props state w last :
  fst (Bead_emit props state w last) = Some w <->
  exists r now l,
    props.(BeadProps.rotationVal) = JS.Fin r
    /\ state.(clock_elapsedTime) = JS.Fin now
    /\ last = JS.Fin l
    /\ 0.01 < r
    /\ props.(BeadProps.isScattered) = false
    /\ emission_interval r < now - l.
Proof.
  unfold Bead_emit.
  destruct props as [bp rv sc si ix gr]; destruct state as [t];
    cbn [BeadProps.rotationVal BeadProps.isScattered clock_elapsedTime].
  split.
  - destruct rv as [r|]; [|cbn; discriminate].
    destruct (JS.Fin r >? 0.01)%num eqn:G; [|cbn; discriminate].
    apply gt_Fin in G.
    destruct sc; [cbn; discriminate|]. cbn [negb andb].
    destruct (interval_finite r G) as [Hi Hq]. rewrite Hi.
    destruct t as [now|]; [|cbn; discriminate].
    destruct last as [l|]; [|cbn; discriminate].
    cbv [JS.sub JS.lift2].
    destruct (JS.Fin (now - l) >? _)%num eqn:G2; [|cbn; discriminate].
    apply gt_Fin in G2. intros _.
    exists r, now, l. repeat split; try assumption. rewrite <- Hq. exact G2.
  - intros (r & now & l & -> & -> & -> & Hr & -> & Hi).
    destruct (interval_finite r Hr) as [Hf Hq]. 
    assert (G : (JS.Fin r >? 0.01)%num = true) by (apply gt_Fin; exact Hr).
    rewrite G. cbn [negb andb]. rewrite Hf.
    cbv [JS.sub JS.lift2].
    assert (G2 : (JS.Fin (now - l) >? JS.Fin (1.0 / (r * 10 + 0.1)))%num = true).
    { apply gt_Fin. rewrite Hq. exact Hi. }
    rewrite G2. reflexivity.
Qed.





(* ================================================================= *)
(** ** The Floating Letter Pool *)

(** [prev.slice(-80)] is the suffix of [prev] of length min(80, |prev|). *)
Lemma slice_last_80 {A : Type} (prev : list A) :
  exists evicted : list A,
    prev = evicted ++ JS.slice (-80) prev
    /\ List.length (JS.slice (-80) prev) = Nat.min 80 (List.length prev).
Proof.
  unfold JS.slice. cbn [Z.ltb Z.compare].
  exists (firstn (Z.to_nat (Z.max (Z.of_nat (List.length prev) + -80) 0)) prev).
  split.
  - symmetry. apply firstn_skipn.
  - rewrite length_skipn. lia.
Qed.

Lemma handleEmitLetter_length origin Date_now u prev :
  List.length (handleEmitLetter origin Date_now u prev)
  = S (Nat.min 80 (List.length prev)).
Proof.
  unfold handleEmitLetter.
  destruct (slice_last_80 prev) as (evicted & _ & Hlen).
  rewrite length_app, Hlen. cbn [List.length]. lia.
Qed.

Lemma emissions_length_le es : forall pool,
  (List.length pool <= 81)%nat -> (List.length (emissions es pool) <= 81)%nat.
Proof.
  induction es as [|e es IH]; intros pool H.
  - exact H.
  - cbn [emissions fold_left]. apply IH.
    rewrite handleEmitLetter_length. lia.
Qed.

Lemma initialBg_length draws : List.length (initialBg draws) = 50%nat.
Proof. unfold initialBg. rewrite length_map, length_seq. reflexivity. Qed.

(** C4.  After the mount effect has set the ambient batch, whatever emissions
    follow, the pool never holds more than 81 letters: an insertion keeps the
    80 most recent letters that were there (all of them when there are
    fewer), evicts the ones before them from the front, and appends the new
    letter. *)
Theorem C4_pool_sliding_window_cap :
  forall (draws : nat -> AmbientDraws) (es : list EmitEvent),
    (List.length
       (emissions es
          (DigitalBracelet_useEffect draws DigitalBracelet_mount).(backgroundLetters))
     <= 81)%nat
    /\ forall (origin : THREE.Vector3.t) (Date_now : Z) (u : EmitDraws)
              (prev : list Types.FloatingLetterData),
         exists evicted kept : list Types.FloatingLetterData,
           prev = evicted ++ kept
           /\ List.length kept = Nat.min 80 (List.length prev)
           /\ handleEmitLetter origin Date_now u prev
              = kept ++ [newLetter origin Date_now u].
Proof.
  intros draws es. split.
  - apply emissions_length_le. cbn [DigitalBracelet_useEffect backgroundLetters].
    rewrite initialBg_length. lia.
  - intros origin Date_now u prev.
    destruct (slice_last_80 prev) as (evicted & Hsplit & Hlen).
    exists evicted, (JS.slice (-80) prev).
    split; [exact Hsplit | split; [exact Hlen | reflexivity]].
Qed.

(* ================================================================= *)
(** ** Idle spin and emission *)

(** A frame without a hand: not scattered, one step toward 0.2. *)
Lemma absent_useFrame f s r :
  f.(f_props).(BraceletSceneProps.isHandPresent) = false ->
  s.(rotationSpeedRef) = JS.Fin r ->
  let s' := DigitalBracelet_useFrame f.(f_props) f.(f_state) f.(f_delta) s in
  s'.(isScatteredRef) = false
  /\ s'.(rotationSpeedRef) = JS.Fin ((1 - 0.05) * r + 0.05 * 0.2).
Proof.
  intros Hp Hr. unfold DigitalBracelet_useFrame. rewrite Hp, Hr.
  split; reflexivity.
Qed.

(** Without a hand the speed, once in [0.0195, 0.2), stays there. *)
Lemma idle_frames_band fs : forall s r,
  all_absent fs = true ->
  s.(rotationSpeedRef) = JS.Fin r -> 0.0195 <= r < 0.2 ->
  s.(isScatteredRef) = false ->
  let s' := DigitalBracelet_frames fs s in
  s'.(isScatteredRef) = false
  /\ exists r', s'.(rotationSpeedRef) = JS.Fin r' /\ 0.0195 <= r' < 0.2.
Proof.
  induction fs as [|f fs IH]; intros s r Ha Hr Hb Hs.
  - split; [exact Hs | exists r; split; [exact Hr | exact Hb]].
  - cbn [all_absent forallb] in Ha. apply andb_true_iff in Ha as [Hf Ha].
    apply negb_true_iff in Hf.
    destruct (absent_useFrame f s r Hf Hr) as [Hs1 Hr1].
    cbn [DigitalBracelet_frames fold_left].
    apply (IH _ _ Ha Hr1); [lra | exact Hs1].
Qed.

(** From the mount on, two frames without a hand bring the speed into the
    band. *)
Lemma idle_from_mount fs :
  all_absent fs = true -> (2 <= List.length fs)%nat ->
  let s := DigitalBracelet_frames fs DigitalBracelet_mount in
  s.(isScatteredRef) = false
  /\ exists r, s.(rotationSpeedRef) = JS.Fin r /\ 0.0195 <= r < 0.2.
Proof.
  intros Ha Hlen.
  destruct fs as [|f1 [|f2 fs]]; cbn [List.length] in Hlen; try lia.
  cbn [all_absent forallb] in Ha.
  apply andb_true_iff in Ha as [Hf1 Ha]. apply andb_true_iff in Ha as [Hf2 Ha].
  apply negb_true_iff in Hf1. apply negb_true_iff in Hf2.
  destruct (absent_useFrame f1 DigitalBracelet_mount 0 Hf1 eq_refl) as [_ Hr1].
  destruct (absent_useFrame f2 _ _ Hf2 Hr1) as [Hs2 Hr2].
  cbn [DigitalBracelet_frames fold_left].
  apply (idle_frames_band fs _ _ Ha Hr2); [lra | exact Hs2].
Qed.

(** C5 (as the code has it).  With present = false on every frame from the
    mount on, the bracelet is never scattered and, from the second frame on,
    its rotation speed lies strictly between the emission gate 0.01 and the
    idle value 0.2; a bead handed that speed emits a letter on every frame
    at which the time since its lastEmitRef exceeds 1 / (speed x 10 + 0.1):
    idle spin does emit letters. *)
Theorem C5_idle_spin_passes_the_emission_gate :
  forall fs : list FrameInput,
    all_absent fs = true -> (2 <= List.length fs)%nat ->
    let s := DigitalBracelet_frames fs DigitalBracelet_mount in
    s.(isScatteredRef) = false
    /\ exists r : Q,
         s.(rotationSpeedRef) = JS.Fin r
         /\ 0.01 < r < 0.2
         /\ forall (d : JS.num) (position : THREE.Vector3.t) (index : nat)
                   (now l : Q) (worldPos : THREE.Vector3.t),
              emission_interval r < now - l ->
              Bead_emit (DigitalBracelet_render_Bead (absent d) s position index)
                {| clock_elapsedTime := now |} worldPos l
              = (Some worldPos, JS.Fin now).
Proof.
  intros fs Ha Hlen s.
  destruct (idle_from_mount fs Ha Hlen) as (Hs & r & Hr & Hb).
  fold s in Hs, Hr.
  split; [exact Hs|]. exists r. split; [exact Hr | split; [lra|]].
  intros d position index now l worldPos Hi.
  set (props := DigitalBracelet_render_Bead (absent d) s position index).
  set (state := {| clock_elapsedTime := now |}).
  assert (E : fst (Bead_emit props state worldPos l) = Some worldPos).
  { apply Bead_emit_iff. exists r, now, l.
    repeat split; try reflexivity; try assumption; lra. }
  destruct (Bead_emit_cases props state worldPos l) as [H|H].
  - exact H.
  - rewrite H in E. discriminate E.
Qed.


(** C5, refuted as stated.  After one second of frames with present = false,
    a bead rendered with the refs as they then stand, whose lastEmitRef is
    still the initial 0, emits a letter on its next frame. *)
Lemma C5_idle_second_then_emission :
  all_absent idle_second = true
  /\ Bead_emit
       (DigitalBracelet_render_Bead (absent 0.1)
          (DigitalBracelet_frames idle_second DigitalBracelet_mount) origin0 0)
       {| clock_elapsedTime := 31 / 30 |} origin0 0
     = (Some origin0, (31 / 30)%num).
Proof. split; vm_compute; reflexivity. Qed.

(* ================================================================= *)
(** ** Malformed distances *)

Lemma isNaN_lerp (x : JS.num) (y t : Q) :
  JS.isNaN (THREE.MathUtils.lerp x y t) = JS.isNaN x.
Proof. destruct x; reflexivity. Qed.

(** A scattered glyph handed a NaN intensity has a NaN position after one
    frame. *)
Lemma Bead_letter_NaN props state i l :
  props.(BeadProps.isScattered) = true ->
  props.(BeadProps.scatterIntensity) = JS.NaN ->
  (Bead_letter props state i l).(child).(Object3D.position)
  = {| THREE.Vector3.x := JS.NaN; THREE.Vector3.y := JS.NaN; THREE.Vector3.z := JS.NaN |}.
Proof.
  intros Hs Hi. unfold Bead_letter. rewrite Hs, Hi.
  cbn [child Object3D.position]. unfold THREE.Vector3.lerp.
  cbn [THREE.Vector3.x THREE.Vector3.y THREE.Vector3.z].
  set (n := THREE.Vector3.normalize _ _).
  set (d := (5 + _ * 2)%num).
  assert (N : forall a b c : JS.num, (a + (b + c * d * JS.NaN - a) * 0.1)%num = JS.NaN).
  { intros a b c. destruct a, b, c, d; reflexivity. }
  rewrite !N. reflexivity.
Qed.

(** A reforming glyph does not read the intensity, nor anything else of the
    props. *)
Lemma Bead_letter_reform props1 props2 state i l :
  props1.(BeadProps.isScattered) = false ->
  props2.(BeadProps.isScattered) = false ->
  Bead_letter props1 state i l
  = Bead_letter props2 state i l.
Proof. intros H1 H2. unfold Bead_letter. rewrite H1, H2. reflexivity. Qed.

(** C6, refuted as stated.  A NaN distance with a hand present reaches the
    beads: the scatter intensity handed to them is NaN. *)
Lemma C6_NaN_distance_reaches_the_beads :
  (DigitalBracelet_render_Bead (present JS.NaN) DigitalBracelet_mount origin0 0)
    .(BeadProps.scatterIntensity) = JS.NaN.
Proof. reflexivity. Qed.

(** C6 (as the code has it).  A NaN or negative distance with a hand present
    is neither clamped nor ignored.  NaN fails both threshold comparisons and
    takes the intermediate branch (not scattered, one smoothing step toward 0
    with factor 0.05); a negative distance takes the pinch branch (not
    scattered, one step toward 2.0 with factor 0.05); either way the rotation
    speed is NaN after the frame only if it was before.  The scatter
    intensity handed to the beads is distance x 5 as it is, NaN for NaN.  A
    reforming bead's glyphs do not read it; a bead that is still scattered
    moves its glyphs to NaN. *)
Theorem C6_malformed_distance_is_not_clamped :
  forall (s : DigitalBracelet) (state : RootState) (delta : JS.num),
    (let s' := DigitalBracelet_useFrame (present JS.NaN) state delta s in
     s'.(isScatteredRef) = false
     /\ s'.(rotationSpeedRef) =n= smooth s.(rotationSpeedRef) 0 0.05
     /\ JS.isNaN s'.(rotationSpeedRef) = JS.isNaN s.(rotationSpeedRef))
    /\ (forall d : Q, d < 0 ->
        let s' := DigitalBracelet_useFrame (present d) state delta s in
        s'.(isScatteredRef) = false
        /\ s'.(rotationSpeedRef) =n= smooth s.(rotationSpeedRef) 2.0 0.05
        /\ JS.isNaN s'.(rotationSpeedRef) = JS.isNaN s.(rotationSpeedRef))
    /\ (forall (d : JS.num) (position : THREE.Vector3.t) (index : nat),
        (DigitalBracelet_render_Bead (present d) s position index)
          .(BeadProps.scatterIntensity) = (d * 5)%num)
    /\ (forall (props1 props2 : BeadProps.t) (st : RootState) (i : nat) (l : Letter),
        props1.(BeadProps.isScattered) = false ->
        props2.(BeadProps.isScattered) = false ->
        Bead_letter props1 st i l
        = Bead_letter props2 st i l)
    /\ (forall (props : BeadProps.t) (st : RootState) (i : nat) (l : Letter),
        props.(BeadProps.isScattered) = true ->
        props.(BeadProps.scatterIntensity) = JS.NaN ->
        (Bead_letter props st i l).(child).(Object3D.position)
        = {| THREE.Vector3.x := JS.NaN; THREE.Vector3.y := JS.NaN;
             THREE.Vector3.z := JS.NaN |}).
Proof.
  intros s state delta.
  split; [|split; [|split; [|split]]].
  - cbv zeta. unfold DigitalBracelet_useFrame, present;
      cbn [BraceletSceneProps.isHandPresent BraceletSceneProps.handDistance
           JS.gt JS.lt fst snd isScatteredRef rotationSpeedRef].
    split; [reflexivity | split; [apply lerp_smooth | apply isNaN_lerp]].
  - intros d Hd. cbv zeta. unfold DigitalBracelet_useFrame, present;
      cbn [BraceletSceneProps.isHandPresent BraceletSceneProps.handDistance].
    assert (G : (JS.Fin d >? SCATTER_THRESHOLD)%num = false).
    { apply Qltb_ge. lra. }
    assert (L : (JS.Fin d <? PINCH_THRESHOLD)%num = true).
    { apply Qltb_lt. lra. }
    rewrite G, L. cbn [fst snd isScatteredRef rotationSpeedRef].
    split; [reflexivity | split; [apply lerp_smooth | apply isNaN_lerp]].
  - reflexivity.
  - apply Bead_letter_reform.
  - apply Bead_letter_NaN.
Qed.

(* ================================================================= *)
(** ** Delta time *)

(** C7, refuted as stated.  The rotation of a floating letter scales by the
    frame's delta time too: the same letter turns by different angles about x
    on a frame of 1/60 s and on a frame of 1/30 s. *)
Lemma C7_floating_letter_rotation_uses_delta :
  let data := newLetter origin0 0 half_draws in
  let f := FloatingLetter_mount data in
  let state := {| clock_elapsedTime := 1 |} in
  ~ ((FloatingLetter_useFrame data 0.2 state (1 / 60) f)
       .(fl_ref).(Object3D.rotation).(THREE.Euler.x)
     =n= (FloatingLetter_useFrame data 0.2 state (1 / 30) f)
           .(fl_ref).(Object3D.rotation).(THREE.Euler.x)).
Proof. vm_compute. discriminate. Qed.



Lemma mapi_from_ext {A B : Type} (f g : nat -> A -> B) (l : list A) :
  (forall i a, f i a = g i a) -> forall k, mapi_from f k l = mapi_from g k l.
Proof.
  intros H. induction l as [|a l IH]; intros k; cbn [mapi_from].
  - reflexivity.
  - rewrite H, IH. reflexivity.
Qed.

(** Of a frame, a glyph reads the clock's elapsed time, for the phase of its
    scatter target, and only while its bead is handed the scatter flag. *)
Lemma Bead_letter_clock props state state' i l :
  state.(clock_elapsedTime) = state'.(clock_elapsedTime)
  \/ props.(BeadProps.isScattered) = false ->
  Bead_letter props state i l = Bead_letter props state' i l.
Proof.
  intros [H|H]; unfold Bead_letter; [rewrite H | rewrite H]; reflexivity.
Qed.

(** C7 (as the code has it).  Two per-frame updates scale by the frame's delta
    time: the ring rotation (+= speed x delta x 0.5) and the rotation of a
    floating letter (+= delta x 0.2 about x, += delta x 0.2 + speed x 0.05
    about y).  The other animation steps are fixed per frame: between two
    frames [state, delta] and [state', delta'] the smoothed speed and the
    scatter flag, the body rotation of a bead and the drift of a floating
    letter (position += velocity) are the same, the glyphs of a reforming
    bead are the same, and the glyphs of a scattered bead are the same as
    soon as the clock reads the same elapsed time, which is all their target
    takes from the frame. *)
Theorem C7_delta_time_users :
  forall (props : BraceletSceneProps.t) (s : DigitalBracelet)
         (data : Types.FloatingLetterData) (f : FloatingLetter)
         (bprops : BeadProps.t) (b : Bead)
         (state state' : RootState) (delta delta' g g' : JS.num)
         (worldPos worldPos' : THREE.Vector3.t),
    let s1 := DigitalBracelet_useFrame props state delta s in
    let f1 := FloatingLetter_useFrame data g state delta f in
    let f2 := FloatingLetter_useFrame data g' state' delta' f in
    let b1 := fst (Bead_useFrame bprops state delta worldPos b) in
    let b2 := fst (Bead_useFrame bprops state' delta' worldPos' b) in
    s1.(containerRef_rotation_z)
    = (s.(containerRef_rotation_z) + s1.(rotationSpeedRef) * delta * 0.5)%num
    /\ f1.(fl_ref).(Object3D.rotation).(THREE.Euler.x)
       = (f.(fl_ref).(Object3D.rotation).(THREE.Euler.x) + delta * 0.2)%num
    /\ f1.(fl_ref).(Object3D.rotation).(THREE.Euler.y)
       = (f.(fl_ref).(Object3D.rotation).(THREE.Euler.y)
          + (delta * 0.2 + g * 0.05))%num
    /\ motionState s1 = motionState (DigitalBracelet_useFrame props state' delta' s)
    /\ b1.(groupRef) = b2.(groupRef)
    /\ (bprops.(BeadProps.isScattered) = false -> b1.(letters) = b2.(letters))
    /\ (state.(clock_elapsedTime) = state'.(clock_elapsedTime) ->
        b1.(letters) = b2.(letters))
    /\ f1.(fl_pos) = f2.(fl_pos)
    /\ f1.(fl_ref).(Object3D.position) = f2.(fl_ref).(Object3D.position)
    /\ f1.(fl_pos)
       = {| THREE.Vector3.x := (f.(fl_pos).(THREE.Vector3.x) + data.(Types.speedX))%num;
            THREE.Vector3.y := (f.(fl_pos).(THREE.Vector3.y) + data.(Types.speedY))%num;
            THREE.Vector3.z := (f.(fl_pos).(THREE.Vector3.z) + data.(Types.speedZ))%num |}.
Proof.
  intros props s data f bprops b state state' delta delta' g g' worldPos worldPos'
         s1 f1 f2 b1 b2.
  split; [reflexivity|].
  split; [reflexivity|].
  split; [reflexivity|].
  split; [subst s1; rewrite (useFrame_motionState props state' delta' s);
          apply useFrame_motionState|].
  split; [reflexivity|].
  split; [|split].
  - intros H. subst b1 b2. unfold Bead_useFrame; cbn [fst letters].
    apply mapi_from_ext. intros i l. apply Bead_letter_clock. right. exact H.
  - intros H. subst b1 b2. unfold Bead_useFrame; cbn [fst letters].
    apply mapi_from_ext. intros i l. apply Bead_letter_clock. left. exact H.
  - repeat split.
Qed.

(* ================================================================= *)
(** ** The Bead Letter-Shell Animator *)




(* ================================================================= *)
(** ** Scatter, then reform *)

Lemma normalize_finite (rest : Q * Q * Q) :
  exists n : Q * Q * Q, THREE.Vector3.normalize Math_sqrt (fin3 rest) = fin3 n.
Proof.
  destruct rest as [[a b] c].
  unfold THREE.Vector3.normalize, THREE.Vector3.length, THREE.Vector3.divideScalar,
    THREE.Vector3.multiplyScalar, fin3;
    cbn [THREE.Vector3.x THREE.Vector3.y THREE.Vector3.z fst snd].
  cbv [JS.add JS.mul JS.lift2 THREE.Vector3.sqrt].
  destruct (JS.Qltb (a * a + b * b + c * c) 0) eqn:E.
  - apply Qltb_lt in E. nra.
  - unfold JS.or_else.
    destruct (Qeq_bool (Math_sqrt (a * a + b * b + c * c)) 0) eqn:E2.
    + exists (a * (1 / 1), b * (1 / 1), c * (1 / 1)). reflexivity.
    + unfold JS.div. rewrite E2.
      eexists (_, _, _). reflexivity.
Qed.









Lemma square_nonneg (a : Q) : 0 <= a * a.
Proof.
  destruct (Qlt_le_dec a 0) as [H|H].
  - assert (E : a * a == (- a) * (- a)) by ring.
    rewrite E. apply Qmult_le_0_compat; lra.
  - apply Qmult_le_0_compat; exact H.
Qed.

(** A number is within its square plus one, and so within any sum of squares
    that contains its own, plus one. *)
Lemma within_squares (e u v : Q) :
  - (e * e + u * u + v * v + 1) <= e <= e * e + u * u + v * v + 1.
Proof.
  pose proof (square_nonneg (e - 1)) as H1.
  pose proof (square_nonneg (e + 1)) as H2.
  pose proof (square_nonneg u) as Hu.
  pose proof (square_nonneg v) as Hv.
  pose proof (square_nonneg e) as He.
  assert (E1 : (e - 1) * (e - 1) == e * e - 2 * e + 1) by ring.
  assert (E2 : (e + 1) * (e + 1) == e * e + 2 * e + 1) by ring.
  rewrite E1 in H1. rewrite E2 in H2.
  generalize dependent (e * e). generalize dependent (u * u).
  generalize dependent (v * v). intros; lra.
Qed.




(** A glyph keeps its config, and a rest position drawn on the shell is
    finite. *)
Lemma Bead_letter_config props state i l :
  (Bead_letter props state i l).(config) = l.(config).
Proof. unfold Bead_letter. destruct (BeadProps.isScattered props); reflexivity. Qed.

Lemma getPointOnSphere_finite (u_theta u_phi r : Q) :
  exists p : Q * Q * Q, getPointOnSphere u_theta u_phi r = fin3 p.
Proof. eexists (_, _, _). reflexivity. Qed.










(* ================================================================= *)
(** ** Sustained gestures *)

(** A frame steps the speed toward the target of its gesture with the factor
    of its gesture, and scatters exactly on an open hand. *)
Lemma useFrame_gesture props state delta s r :
  s.(rotationSpeedRef) = JS.Fin r ->
  let g := gesture_of props in
  let s' := DigitalBracelet_useFrame props state delta s in
  s'.(rotationSpeedRef)
  = JS.Fin ((1 - gesture_factor g) * r + gesture_factor g * gesture_target g)
  /\ s'.(isScatteredRef) = Gesture_eqb g OpenHand.
Proof.
  intros Hr. destruct props as [d p]. cbv zeta.
  unfold DigitalBracelet_useFrame, gesture_of;
    cbn [BraceletSceneProps.isHandPresent BraceletSceneProps.handDistance].
  rewrite Hr.
  destruct p; [destruct (d >? SCATTER_THRESHOLD)%num;
                 [|destruct (d <? PINCH_THRESHOLD)%num]|];
    split; reflexivity.
Qed.

Lemma gesture_factor_cases g :
  (gesture_factor g = 0.05 \/ gesture_factor g = 0.1)
  /\ 0 <= gesture_target g <= 2.
Proof. destruct g; cbn; split; (auto || lra). Qed.

Lemma approach_step g D k x :
  approach (approach_rate g) D k x (gesture_target g) ->
  approach (approach_rate g) D (S k)
    ((1 - gesture_factor g) * x + gesture_factor g * gesture_target g)
    (gesture_target g).
Proof.
  unfold approach. intros [H1 H2].
  assert (Hk : inject_Z (Z.of_nat (S k)) == inject_Z (Z.of_nat k) + 1).
  { rewrite Nat2Z.inj_succ, <- Z.add_1_r, inject_Z_plus. reflexivity. }
  rewrite Hk.
  set (j := inject_Z (Z.of_nat k)) in *.
  set (a := gesture_target g) in *.
  destruct g; cbn [gesture_factor approach_rate] in *.
  - assert (E : ((1 - 0.05) * x + 0.05 * a - a) * (19 + (j + 1))
                == 0.95 * ((x - a) * (19 + j)) + 0.95 * (x - a)) by ring.
    rewrite E. set (P := (x - a) * (19 + j)) in *. split; lra.
  - assert (E : ((1 - 0.1) * x + 0.1 * a - a) * (9 + (j + 1))
                == 0.9 * ((x - a) * (9 + j)) + 0.9 * (x - a)) by ring.
    rewrite E. set (P := (x - a) * (9 + j)) in *. split; lra.
  - assert (E : ((1 - 0.05) * x + 0.05 * a - a) * (19 + (j + 1))
                == 0.95 * ((x - a) * (19 + j)) + 0.95 * (x - a)) by ring.
    rewrite E. set (P := (x - a) * (19 + j)) in *. split; lra.
  - assert (E : ((1 - 0.05) * x + 0.05 * a - a) * (19 + (j + 1))
                == 0.95 * ((x - a) * (19 + j)) + 0.95 * (x - a)) by ring.
    rewrite E. set (P := (x - a) * (19 + j)) in *. split; lra.
Qed.

Lemma approach_start g D x :
  - D <= x - gesture_target g <= D ->
  approach (approach_rate g) D 0 x (gesture_target g).
Proof.
  unfold approach. intros H. split; [exact H|].
  change (inject_Z (Z.of_nat 0)) with 0.
  set (a := gesture_target g) in *.
  destruct g; cbn [approach_rate].
  - assert (E : (x - a) * (19 + 0) == 19 * (x - a)) by ring. rewrite E. lra.
  - assert (E : (x - a) * (9 + 0) == 9 * (x - a)) by ring. rewrite E. lra.
  - assert (E : (x - a) * (19 + 0) == 19 * (x - a)) by ring. rewrite E. lra.
  - assert (E : (x - a) * (19 + 0) == 19 * (x - a)) by ring. rewrite E. lra.
Qed.

(** Past some count of frames the bound is below [eps]. *)
Lemma approach_close g D k x eps :
  0 < eps ->
  approach_rate g * D < eps * inject_Z (Z.of_nat k) ->
  approach (approach_rate g) D k x (gesture_target g) ->
  - eps < x - gesture_target g < eps.
Proof.
  unfold approach. intros He Hk [H1 H2].
  set (j := inject_Z (Z.of_nat k)) in *.
  set (e := x - gesture_target g) in *.
  set (M := approach_rate g) in *.
  assert (HM : 0 < M) by (unfold M; destruct g; cbn; lra).
  assert (Hj : 0 <= j).
  { unfold j. change 0 with (inject_Z 0). rewrite <- Zle_Qle. lia. }
  assert (Hm : 0 < M + j) by lra.
  assert (HeM : 0 < eps * M) by (apply Qmult_lt_0_compat; assumption).
  split.
  - apply Qnot_le_lt. intros C.
    assert (H : e * (M + j) <= (- eps) * (M + j)).
    { apply Qmult_le_compat_r; lra. }
    assert (E1 : - eps * (M + j) == - (eps * M + eps * j)) by ring.
    rewrite E1 in H. clear E1.
    generalize dependent (e * (M + j)). generalize dependent (eps * j).
    generalize dependent (eps * M). generalize dependent (M * D).
    intros; lra.
  - apply Qnot_le_lt. intros C.
    assert (H : eps * (M + j) <= e * (M + j)).
    { apply Qmult_le_compat_r; lra. }
    assert (E1 : eps * (M + j) == eps * M + eps * j) by ring.
    rewrite E1 in H. clear E1.
    generalize dependent (e * (M + j)). generalize dependent (eps * j).
    generalize dependent (eps * M). generalize dependent (M * D).
    intros; lra.
Qed.

(** The natural numbers are not bounded by a rational. *)
Lemma archimedean (q : Q) :
  exists N : nat, forall n : nat, (N <= n)%nat -> q < inject_Z (Z.of_nat n).
Proof.
  exists (S (Z.to_nat (Qceiling q))). intros n Hn.
  apply Qle_lt_trans with (inject_Z (Qceiling q)); [apply Qle_ceiling|].
  rewrite <- Zlt_Qlt. lia.
Qed.

(** A run of frames of one gesture keeps the bound, tightening it with every
    frame. *)
Lemma sustained_approach g D fs : forall k s r,
  sustained g fs = true ->
  s.(rotationSpeedRef) = JS.Fin r ->
  approach (approach_rate g) D k r (gesture_target g) ->
  exists r',
    (DigitalBracelet_frames fs s).(rotationSpeedRef) = JS.Fin r'
    /\ approach (approach_rate g) D (k + List.length fs) r' (gesture_target g).
Proof.
  induction fs as [|f fs IH]; intros k s r Hs Hr Ha.
  - exists r. rewrite Nat.add_0_r. split; assumption.
  - cbn [sustained forallb] in Hs. apply andb_true_iff in Hs as [Hg Hs].
    assert (Eg : gesture_of f.(f_props) = g).
    { destruct (gesture_of f.(f_props)), g; cbn in Hg; congruence. }
    destruct (useFrame_gesture f.(f_props) f.(f_state) f.(f_delta) s r Hr) as [Hr1 _].
    rewrite Eg in Hr1.
    cbn [DigitalBracelet_frames fold_left List.length]. rewrite Nat.add_succ_r.
    apply (IH (S k) _ _ Hs Hr1). apply approach_step. exact Ha.
Qed.

(** X1.  Sustained gesture, convergence.  From any finite speed, a run of frames
    that all amount to one gesture (no hand, open hand, pinch, in between)
    brings the rotation speed within epsilon of that gesture's target (0.2, 0,
    2.0, 0) once it is long enough, for any epsilon of at least a billionth
    (the rounding of the source's doubles can stall the approach some 1e-15
    short of the target). *)
Theorem sustained_gesture_converges :
  forall (g : Gesture) (s : DigitalBracelet) (r0 eps : Q),
    s.(rotationSpeedRef) = JS.Fin r0 ->
    (1 # 1000000000) <= eps ->
    exists N : nat,
      forall fs : list FrameInput,
        sustained g fs = true ->
        (N <= List.length fs)%nat ->
        exists r : Q,
          (DigitalBracelet_frames fs s).(rotationSpeedRef) = JS.Fin r
          /\ - eps < r - gesture_target g < eps.
Proof.
  intros g s r0 eps Hr He0.
  assert (He : 0 < eps) by lra.
  set (e := r0 - gesture_target g).
  set (D := e * e + 0 * 0 + 0 * 0 + 1).
  destruct (archimedean (approach_rate g * D / eps)) as (N & HN).
  exists N. intros fs Hs Hlen.
  destruct (sustained_approach g D fs 0 s r0 Hs Hr) as (r & Hr' & Ha).
  { apply approach_start. apply (within_squares e 0 0). }
  exists r. split; [exact Hr'|].
  apply (approach_close g D (0 + List.length fs) r eps He); [|exact Ha].
  cbn [Nat.add]. specialize (HN _ Hlen).
  assert (E : approach_rate g * D == approach_rate g * D / eps * eps).
  { field. lra. }
  rewrite E.
  rewrite (Qmult_comm eps).
  apply Qmult_lt_compat_r; assumption.
Qed.

(** One frame leaves the speed between where it was and the target. *)
Lemma step_between (f T r : Q) :
  0 <= f <= 1 ->
  (r <= T -> r <= (1 - f) * r + f * T <= T)
  /\ (T <= r -> T <= (1 - f) * r + f * T <= r).
Proof.
  intros Hf.
  assert (E : (1 - f) * r + f * T == r + f * (T - r)) by ring.
  assert (E2 : (1 - f) * r + f * T == T - (1 - f) * (T - r)) by ring.
  split; intros H.
  - split.
    + rewrite E. assert (0 <= f * (T - r)) by (apply Qmult_le_0_compat; lra). lra.
    + rewrite E2. assert (0 <= (1 - f) * (T - r)) by (apply Qmult_le_0_compat; lra). lra.
  - split.
    + assert (E3 : (1 - f) * r + f * T == T + (1 - f) * (r - T)) by ring.
      rewrite E3. assert (0 <= (1 - f) * (r - T)) by (apply Qmult_le_0_compat; lra). lra.
    + assert (E4 : (1 - f) * r + f * T == r - f * (r - T)) by ring.
      rewrite E4. assert (0 <= f * (r - T)) by (apply Qmult_le_0_compat; lra). lra.
Qed.

(** X2.  Sustained gesture, no overshoot.  Along a run of frames of one gesture the
    speed stays between its starting value and the gesture's target: it never
    passes the target and never moves away from it; a speed on the target
    stays there. *)
Theorem sustained_gesture_never_overshoots :
  forall (g : Gesture) (fs : list FrameInput) (s : DigitalBracelet) (r0 : Q),
    s.(rotationSpeedRef) = JS.Fin r0 ->
    sustained g fs = true ->
    exists r : Q,
      (DigitalBracelet_frames fs s).(rotationSpeedRef) = JS.Fin r
      /\ (r0 <= gesture_target g -> r0 <= r <= gesture_target g)
      /\ (gesture_target g <= r0 -> gesture_target g <= r <= r0).
Proof.
  intros g fs. induction fs as [|f fs IH]; intros s r0 Hr Hs.
  - exists r0. split; [exact Hr | split; intros; lra].
  - cbn [sustained forallb] in Hs. apply andb_true_iff in Hs as [Hg Hs].
    assert (Eg : gesture_of f.(f_props) = g).
    { destruct (gesture_of f.(f_props)), g; cbn in Hg; congruence. }
    destruct (useFrame_gesture f.(f_props) f.(f_state) f.(f_delta) s r0 Hr) as [Hr1 _].
    rewrite Eg in Hr1.
    destruct (IH _ _ Hr1 Hs) as (r & Hr' & Hlo & Hhi).
    exists r. split; [exact Hr'|].
    assert (Hf : 0 <= gesture_factor g <= 1) by (destruct g; cbn; lra).
    destruct (step_between (gesture_factor g) (gesture_target g) r0 Hf) as [Slo Shi].
    split; intros H.
    + specialize (Slo H). specialize (Hlo (proj2 Slo)). lra.
    + specialize (Shi H). specialize (Hhi (proj1 Shi)). lra.
Qed.

(** X3.  No jumps.  Whatever the hand signal, NaN included, a frame changes the
    rotation speed of a running bracelet by at most 0.2 downward and 0.1
    upward. *)
Theorem speed_step_is_small :
  forall (fs : list FrameInput) (f : FrameInput),
    let s := DigitalBracelet_frames fs DigitalBracelet_mount in
    let s' := DigitalBracelet_useFrame f.(f_props) f.(f_state) f.(f_delta) s in
    exists r r' : Q,
      s.(rotationSpeedRef) = JS.Fin r
      /\ s'.(rotationSpeedRef) = JS.Fin r'
      /\ - 0.2 <= r' - r <= 0.1.
Proof.
  intros fs f s s'.
  destruct (frames_speed_bounded fs DigitalBracelet_mount 0 eq_refl) as (r & Hr & Hb);
    [lra|].
  fold s in Hr.
  destruct (useFrame_gesture f.(f_props) f.(f_state) f.(f_delta) s r Hr) as [Hr' _].
  exists r. eexists. split; [exact Hr | split; [exact Hr'|]].
  destruct (gesture_of f.(f_props)); cbn [gesture_factor gesture_target]; lra.
Qed.

(* ================================================================= *)
(** ** The ring's rotation *)

Lemma useFrame_ring f s r z d :
  s.(rotationSpeedRef) = JS.Fin r -> 0 <= r <= 2 ->
  s.(containerRef_rotation_z) = JS.Fin z ->
  f.(f_delta) = JS.Fin d -> 0 <= d ->
  let s' := DigitalBracelet_useFrame f.(f_props) f.(f_state) f.(f_delta) s in
  exists r' z',
    s'.(rotationSpeedRef) = JS.Fin r' /\ 0 <= r' <= 2
    /\ s'.(containerRef_rotation_z) = JS.Fin z' /\ 0 <= z' - z <= d.
Proof.
  intros Hr Hb Hz Hd Hd0. cbv zeta.
  destruct (useFrame_speed_bounded f.(f_props) f.(f_state) f.(f_delta) s r Hr Hb)
    as (r' & Hr' & Hb').
  exists r', (z + r' * d * 0.5). split; [exact Hr' | split; [exact Hb'|]].
  split.
  - unfold DigitalBracelet_useFrame in *. cbn [containerRef_rotation_z rotationSpeedRef] in *.
    rewrite Hr', Hz, Hd. reflexivity.
  - assert (H0 : 0 <= r' * d) by (apply Qmult_le_0_compat; lra).
    assert (H1 : r' * d <= 2 * d) by (apply Qmult_le_compat_r; lra).
    generalize dependent (r' * d). intros; lra.
Qed.

Lemma frames_ring fs : forall s r z t0,
  s.(rotationSpeedRef) = JS.Fin r -> 0 <= r <= 2 ->
  s.(containerRef_rotation_z) = JS.Fin z ->
  deltas_nonneg fs = true ->
  exists z' t',
    (DigitalBracelet_frames fs s).(containerRef_rotation_z) = JS.Fin z'
    /\ fold_left (fun t f => (t + f.(f_delta))%num) fs (JS.Fin t0) = JS.Fin t'
    /\ 0 <= z' - z <= t' - t0.
Proof.
  induction fs as [|f fs IH]; intros s r z t0 Hr Hb Hz Hd.
  - exists z, t0. split; [exact Hz | split; [reflexivity | lra]].
  - cbn [deltas_nonneg forallb] in Hd. apply andb_true_iff in Hd as [Hf Hd].
    destruct (f_delta f) as [d|] eqn:Ed; [|discriminate].
    apply Qle_bool_iff in Hf.
    destruct (useFrame_ring f s r z d Hr Hb Hz Ed Hf) as (r1 & z1 & Hr1 & Hb1 & Hz1 & Hs1).
    rewrite Ed in Hr1, Hz1.
    cbn [DigitalBracelet_frames fold_left]. rewrite Ed.
    destruct (IH _ r1 z1 (t0 + d) Hr1 Hb1 Hz1 Hd) as (z' & t' & Hz' & Ht' & Hs').
    exists z', t'. split; [exact Hz' | split; [exact Ht' | lra]].
Qed.

(** X4.  The ring turns forward only, and by at most one radian per second: from
    the mount on, over frames whose delta times are finite and not negative,
    the ring's rotation is finite, not negative and at most the frame time
    elapsed. *)
Theorem ring_turns_forward_at_most_a_radian_per_second :
  forall fs : list FrameInput,
    deltas_nonneg fs = true ->
    exists z t : Q,
      (DigitalBracelet_frames fs DigitalBracelet_mount).(containerRef_rotation_z)
      = JS.Fin z
      /\ elapsed fs = JS.Fin t
      /\ 0 <= z <= t.
Proof.
  intros fs Hd.
  destruct (frames_ring fs DigitalBracelet_mount 0 0 0 eq_refl) as (z & t & Hz & Ht & Hb);
    try reflexivity; try lra; try exact Hd.
  exists z, t. split; [exact Hz | split; [exact Ht | lra]].
Qed.

(* ================================================================= *)
(** ** The emission rate *)

(** For a speed within the gate and 2.0 the interval is at least 10/201 s and
    below 5 s. *)
Lemma emission_interval_bounds (r : Q) :
  0.01 < r <= 2 -> (10 # 201) <= emission_interval r < 5.
Proof.
  intros [H1 H2]. unfold emission_interval. split.
  - apply Qle_shift_div_l; lra.
  - apply Qlt_shift_div_r; lra.
Qed.

(** X5.  A bead handed a speed of at most 2.0 emits only when more than 10/201 s
    (about 0.0498 s) have passed since its [lastEmitRef]: it never emits more
    than 20.1 letters a second. *)
Theorem bead_emissions_are_spaced :
  forall (props : BeadProps.t) (state : RootState) (worldPos : THREE.Vector3.t)
         (r now l : Q),
    props.(BeadProps.rotationVal) = JS.Fin r ->
    r <= 2 ->
    state.(clock_elapsedTime) = JS.Fin now ->
    fst (Bead_emit props state worldPos l) = Some worldPos ->
    (10 # 201) < now - l.
Proof.
  intros props state worldPos r now l Hr Hb Hnow He.
  apply Bead_emit_iff in He as (r' & now' & l' & Hr' & Hn' & Hl' & Hg & _ & Hi).
  rewrite Hr in Hr'. rewrite Hnow in Hn'.
  injection Hr' as <-. injection Hn' as <-. injection Hl' as <-.
  destruct (emission_interval_bounds r) as [Hlo _]; [lra|]. lra.
Qed.

(* ================================================================= *)
(** ** The pool as a window *)

Lemma slice_last {A : Type} (k : positive) (l : list A) :
  JS.slice (Z.neg k) l = skipn (List.length l - Pos.to_nat k) l.
Proof.
  unfold JS.slice. cbn [Z.ltb Z.compare]. f_equal. lia.
Qed.

Lemma last_of_last {A : Type} (l : list A) (x : A) :
  skipn (List.length (skipn (List.length l - 81) l) - 80) (skipn (List.length l - 81) l)
  ++ [x]
  = skipn (List.length (l ++ [x]) - 81) (l ++ [x]).
Proof.
  rewrite skipn_skipn, length_skipn, length_app, skipn_app. cbn [List.length].
  replace (List.length l + 1 - 81 - List.length l)%nat with 0%nat by lia.
  cbn [skipn]. f_equal. f_equal. lia.
Qed.

Lemma emissions_snoc es e init :
  emissions (es ++ [e]) init
  = handleEmitLetter (fst (fst e)) (snd (fst e)) (snd e) (emissions es init).
Proof. unfold emissions. rewrite fold_left_app. reflexivity. Qed.

Lemma emissions_window (init : list Types.FloatingLetterData) :
  (List.length init <= 81)%nat ->
  forall es : list EmitEvent,
    emissions es init
    = skipn (List.length (init ++ map letter_of es) - 81) (init ++ map letter_of es).
Proof.
  intros Hinit es. induction es as [|e es IH] using rev_ind.
  - cbn [map emissions fold_left]. rewrite app_nil_r.
    replace (List.length init - 81)%nat with 0%nat by lia. reflexivity.
  - rewrite emissions_snoc, IH. unfold handleEmitLetter. fold (letter_of e). rewrite (slice_last 80%positive).
    rewrite map_app, app_assoc. cbn [map].
    change (Pos.to_nat 80) with 80%nat.
    apply (last_of_last (init ++ map letter_of es) (letter_of e)).
Qed.

(** X6.  The pool is a sliding window: after the mount effect and any emissions it
    holds, in the order of insertion, exactly the 81 most recent of all the
    letters ever inserted (all of them while there are fewer), so
    min(50 + n, 81) letters after n emissions. *)
Theorem pool_is_the_81_most_recent :
  forall (draws : nat -> AmbientDraws) (es : list EmitEvent),
    let ambient := (DigitalBracelet_useEffect draws DigitalBracelet_mount).(backgroundLetters) in
    emissions es ambient = JS.slice (-81) (ambient ++ map letter_of es)
    /\ List.length (emissions es ambient) = Nat.min (50 + List.length es) 81.
Proof.
  intros draws es ambient.
  assert (Ha : List.length ambient = 50%nat) by apply initialBg_length.
  assert (E : emissions es ambient
              = skipn (List.length (ambient ++ map letter_of es) - 81)
                  (ambient ++ map letter_of es)).
  { apply emissions_window. lia. }
  split.
  - rewrite E. symmetry. apply (slice_last 81%positive).
  - rewrite E, length_skipn, length_app, length_map, Ha. lia.
Qed.

Lemma In_skipn {A : Type} (k : nat) (l : list A) (x : A) :
  In x (skipn k l) -> In x l.
Proof.
  intros H. rewrite <- (firstn_skipn k l). apply in_or_app. right. exact H.
Qed.

(** X7.  Emission traffic evicts the ambient letters: once 81 letters have been
    emitted, every letter of the pool is an emitted one. *)
Theorem ambient_letters_are_gone_after_81_emissions :
  forall (draws : nat -> AmbientDraws) (es : list EmitEvent),
    (81 <= List.length es)%nat ->
    Forall (fun l => exists (Date_now : Z) (random : Q),
                       l.(Types.id) = Types.emit Date_now random)
      (emissions es (DigitalBracelet_useEffect draws DigitalBracelet_mount).(backgroundLetters)).
Proof.
  intros draws es Hlen.
  set (ambient := (DigitalBracelet_useEffect draws DigitalBracelet_mount).(backgroundLetters)).
  assert (Ha : List.length ambient = 50%nat) by apply initialBg_length.
  rewrite (emissions_window ambient) by lia.
  rewrite skipn_app, length_app, length_map, Ha.
  rewrite (skipn_all2 ambient) by lia. cbn [app].
  apply Forall_forall. intros l Hin. apply In_skipn in Hin.
  apply in_map_iff in Hin as (e & <- & _).
  exists (snd (fst e)), (snd e).(u_id). reflexivity.
Qed.

(* ================================================================= *)
(** ** Random draws *)

Lemma unit_draw_iff (u : Q) : unit_draw u = true <-> 0 <= u < 1.
Proof.
  clear Math_sin Math_sqrt Math_cos.
  unfold unit_draw. rewrite andb_true_iff, Qle_bool_iff, Qltb_lt. tauto.
Qed.

Lemma rnd_range (u min max : Q) :
  0 <= u < 1 -> min < max -> in_range (rnd u min max) min max.
Proof.
  intros Hu Hm.
  cbv [rnd JS.add JS.sub JS.mul JS.lift2 in_range].
  assert (H0 : 0 <= u * (max - min)) by (apply Qmult_le_0_compat; lra).
  assert (H1 : u * (max - min) < 1 * (max - min)) by (apply Qmult_lt_compat_r; lra).
  generalize dependent (u * (max - min)). intros; lra.
Qed.

Lemma rnd_closed_range (u min max : Q) :
  0 <= u < 1 -> min < max -> in_closed_range (rnd u min max) min max.
Proof.
  intros Hu Hm. pose proof (rnd_range u min max Hu Hm) as H.
  unfold in_range, in_closed_range in *.
  destruct (rnd u min max); [lra | exact H].
Qed.

(** X8.  [rnd(min, max)] of a draw in [0, 1) is a finite number from [min] to
    [max], both included (a draw next to 1 can round to [max] in the source's
    doubles); a draw of 0 gives [min] itself. *)
Theorem rnd_in_range :
  forall u min max : Q,
    unit_draw u = true -> min < max ->
    in_closed_range (rnd u min max) min max /\ rnd 0 min max =n= min.
Proof.
  intros u min max Hu Hm. apply unit_draw_iff in Hu. split.
  - apply rnd_closed_range; assumption.
  - cbv [rnd JS.add JS.sub JS.mul JS.lift2 JS.eqv]. ring.
Qed.

Lemma get_in_range (s : string) : forall n : nat,
  (n < String.length s)%nat ->
  exists c, String.get n s = Some c /\ In c (list_ascii_of_string s).
Proof.
  induction s as [|a s IH]; intros n Hn; cbn [String.length] in Hn.
  - lia.
  - destruct n as [|n].
    + exists a. split; [reflexivity | left; reflexivity].
    + destruct (IH n) as (c & Hc & Hin); [lia|].
      exists c. split; [exact Hc | right; exact Hin].
Qed.

Lemma random_char_some (u : Q) :
  0 <= u < 1 ->
  exists c : ascii, random_char u = Some c /\ In c (list_ascii_of_string ALPHABET).
Proof.
  intros Hu.
  unfold random_char. change (String.length ALPHABET) with 36%nat.
  cbv [JS.mul JS.lift2 JS.floor].
  change (inject_Z (Z.of_nat 36)) with 36.
  assert (Hlo : (0 <= Qfloor (u * 36))%Z).
  { change 0%Z with (Qfloor 0). apply Qfloor_resp_le. lra. }
  assert (Hhi : (Qfloor (u * 36) < 36)%Z).
  { rewrite Zlt_Qlt. apply Qle_lt_trans with (u * 36); [apply Qfloor_le|].
    change (inject_Z 36) with 36. lra. }
  destruct (Qfloor (u * 36) <? 0)%Z eqn:E; [apply Z.ltb_lt in E; lia|].
  apply (get_in_range ALPHABET). change (String.length ALPHABET) with 36%nat. lia.
Qed.

(** X9.  A draw in [0, 1) always picks a glyph of the alphabet: the index
    floor(u x 36) never reaches 36, so the glyph is never undefined. *)
Theorem random_char_is_defined :
  forall u : Q,
    unit_draw u = true ->
    exists c : ascii, random_char u = Some c /\ In c (list_ascii_of_string ALPHABET).
Proof. intros u Hu. apply random_char_some. apply unit_draw_iff. exact Hu. Qed.

(* ================================================================= *)
(** ** The ambient batch and the emitted letters *)

Lemma ambient_draws_ok_iff (u : AmbientDraws) :
  ambient_draws_ok u = true ->
  0 <= u.(a_char) < 1 /\ 0 <= u.(a_x) < 1 /\ 0 <= u.(a_y) < 1 /\ 0 <= u.(a_z) < 1
  /\ 0 <= u.(a_speedX) < 1 /\ 0 <= u.(a_speedY) < 1 /\ 0 <= u.(a_speedZ) < 1
  /\ 0 <= u.(a_scale) < 1.
Proof.
  clear Math_sin Math_sqrt Math_cos.
  unfold ambient_draws_ok. rewrite !andb_true_iff, !unit_draw_iff. tauto.
Qed.

Lemma emit_draws_ok_iff (u : EmitDraws) :
  emit_draws_ok u = true ->
  0 <= u.(u_x) < 1 /\ 0 <= u.(u_y) < 1
  /\ 0 <= u.(u_speedX) < 1 /\ 0 <= u.(u_speedY) < 1 /\ 0 <= u.(u_speedZ) < 1.
Proof.
  clear Math_sin Math_sqrt Math_cos.
  unfold emit_draws_ok. rewrite !andb_true_iff, !unit_draw_iff. tauto.
Qed.

(** X10.  The ambient batch: 50 letters with the ids init-0 to init-49, each with a
    glyph of the alphabet, placed behind the bracelet (x and y in [-10, 10),
    z in [-15, -5)), drifting by less than 0.02 per frame along x and y and
    0.01 along z, at a scale from 0.5 to 1.5, both included. *)
Theorem ambient_batch_is_behind_the_bracelet :
  forall draws : nat -> AmbientDraws,
    (forall i : nat, ambient_draws_ok (draws i) = true) ->
    map Types.id (initialBg draws) = map Types.init (seq 0 50)
    /\ Forall (fun l =>
                 l.(Types.char) <> None
                 /\ in_range l.(Types.x) (-10) 10
                 /\ in_range l.(Types.y) (-10) 10
                 /\ in_range l.(Types.z) (-15) (-5)
                 /\ in_range l.(Types.speedX) (-0.02) 0.02
                 /\ in_range l.(Types.speedY) (-0.02) 0.02
                 /\ in_range l.(Types.speedZ) (-0.01) 0.01
                 /\ in_closed_range l.(Types.scale) 0.5 1.5)
         (initialBg draws).
Proof.
  intros draws Hok. unfold initialBg. split.
  - rewrite map_map. reflexivity.
  - apply Forall_forall. intros l Hin.
    apply in_map_iff in Hin as (i & <- & _).
    destruct (ambient_draws_ok_iff _ (Hok i)) as (Hc & Hx & Hy & Hz & Hsx & Hsy & Hsz & Hs).
    cbn [ambient_letter Types.char Types.x Types.y Types.z Types.speedX Types.speedY
         Types.speedZ Types.scale].
    split.
    { destruct (random_char_some _ Hc) as (c & -> & _). discriminate. }
    repeat (split; [apply rnd_range; [assumption | reflexivity]|]).
    apply rnd_closed_range; [assumption | reflexivity].
Qed.

(** A floating letter with a finite position and a finite velocity drifts
    linearly: each frame adds the velocity, whatever the frame's delta and the
    bracelet's speed, and the group sits on the tracked position. *)
Lemma FloatingLetter_drift data vx vy vz fs : forall (f : FloatingLetter) (x y z : Q),
  data.(Types.speedX) = JS.Fin vx ->
  data.(Types.speedY) = JS.Fin vy ->
  data.(Types.speedZ) = JS.Fin vz ->
  f.(fl_pos) = fin3 (x, y, z) ->
  f.(fl_ref).(Object3D.position) = f.(fl_pos) ->
  let f' := FloatingLetter_frames data fs f in
  let n := inject_Z (Z.of_nat (List.length fs)) in
  f'.(fl_ref).(Object3D.position) = f'.(fl_pos)
  /\ exists x' y' z',
       f'.(fl_pos) = fin3 (x', y', z')
       /\ x' == x + n * vx /\ y' == y + n * vy /\ z' == z + n * vz.
Proof.
  induction fs as [|a fs IH]; intros f x y z Hx Hy Hz Hp Hr; cbv zeta.
  - split; [exact Hr|]. exists x, y, z. split; [exact Hp|].
    change (inject_Z (Z.of_nat (List.length (@nil (JS.num * RootState * JS.num))))) with 0.
    repeat split; ring.
  - cbn [FloatingLetter_frames fold_left List.length].
    set (f1 := FloatingLetter_useFrame data (fst (fst a)) (snd (fst a)) (snd a) f).
    assert (Hp1 : f1.(fl_pos) = fin3 (x + vx, y + vy, z + vz)).
    { unfold f1, FloatingLetter_useFrame. cbn [fl_pos].
      rewrite Hp, Hx, Hy, Hz. reflexivity. }
    destruct (IH f1 _ _ _ Hx Hy Hz Hp1 eq_refl) as (Hr' & x' & y' & z' & Hp' & Ex & Ey & Ez).
    split; [exact Hr'|]. exists x', y', z'. split; [exact Hp'|].
    rewrite Nat2Z.inj_succ, <- Z.add_1_r, inject_Z_plus.
    change (inject_Z 1) with 1.
    rewrite Ex, Ey, Ez. repeat split; ring.
Qed.

Lemma scale_between (n v lo hi : Q) :
  0 <= n -> lo <= v <= hi -> lo * n <= n * v <= hi * n.
Proof.
  intros Hn [H1 H2]. rewrite (Qmult_comm n v).
  split; apply Qmult_le_compat_r; assumption.
Qed.

(** X11.  An emitted letter floats up for good: it starts at its origin's z, within
    0.2 of the origin in x and y, and after n frames it has risen by at
    least 0.05 n and at most 0.15 n, and has moved by at most 0.05 n along x
    and along z; the frames' delta times and the bracelet's speed play no part. *)
Theorem emitted_letter_floats_up :
  forall (o : Q * Q * Q) (Date_now : Z) (u : EmitDraws)
         (fs : list (JS.num * RootState * JS.num)),
    emit_draws_ok u = true ->
    let data := newLetter (fin3 o) Date_now u in
    let f := FloatingLetter_frames data fs (FloatingLetter_mount data) in
    let n := inject_Z (Z.of_nat (List.length fs)) in
    f.(fl_ref).(Object3D.position) = f.(fl_pos)
    /\ exists x0 y0 x y z : Q,
         data.(Types.x) = JS.Fin x0 /\ data.(Types.y) = JS.Fin y0
         /\ - 0.2 <= x0 - fst (fst o) <= 0.2 /\ - 0.2 <= y0 - snd (fst o) <= 0.2
         /\ f.(fl_pos) = fin3 (x, y, z)
         /\ y0 + 0.05 * n <= y <= y0 + 0.15 * n
         /\ - (0.05 * n) <= x - x0 <= 0.05 * n
         /\ - (0.05 * n) <= z - snd o <= 0.05 * n.
Proof.
  intros [[ox oy] oz] Date_now u fs Hok data f n.
  destruct (emit_draws_ok_iff u Hok) as (Hx & Hy & Hsx & Hsy & Hsz).
  pose proof (rnd_range _ (-0.2) 0.2 Hx eq_refl) as Jx.
  pose proof (rnd_range _ (-0.2) 0.2 Hy eq_refl) as Jy.
  pose proof (rnd_range _ (-0.05) 0.05 Hsx eq_refl) as Vx.
  pose proof (rnd_range _ 0.05 0.15 Hsy eq_refl) as Vy.
  pose proof (rnd_range _ (-0.05) 0.05 Hsz eq_refl) as Vz.
  destruct (rnd u.(u_x) (-0.2) 0.2) as [jx|] eqn:Ejx; [|contradiction].
  destruct (rnd u.(u_y) (-0.2) 0.2) as [jy|] eqn:Ejy; [|contradiction].
  destruct (rnd u.(u_speedX) (-0.05) 0.05) as [vx|] eqn:Evx; [|contradiction].
  destruct (rnd u.(u_speedY) 0.05 0.15) as [vy|] eqn:Evy; [|contradiction].
  destruct (rnd u.(u_speedZ) (-0.05) 0.05) as [vz|] eqn:Evz; [|contradiction].
  cbn [in_range] in *.
  assert (Dx : data.(Types.x) = JS.Fin (ox + jx)).
  { unfold data, newLetter. cbn [Types.x fin3 fst snd THREE.Vector3.x]. rewrite Ejx. reflexivity. }
  assert (Dy : data.(Types.y) = JS.Fin (oy + jy)).
  { unfold data, newLetter. cbn [Types.y fin3 fst snd THREE.Vector3.y]. rewrite Ejy. reflexivity. }
  assert (Dz : data.(Types.z) = JS.Fin oz) by reflexivity.
  destruct (FloatingLetter_drift data vx vy vz fs (FloatingLetter_mount data)
              (ox + jx) (oy + jy) oz)
    as (Hr & x & y & z & Hp & Ex & Ey & Ez); try assumption.
  { unfold FloatingLetter_mount. cbn [fl_pos]. rewrite Dx, Dy, Dz. reflexivity. }
  { reflexivity. }
  split; [exact Hr|].
  exists (ox + jx), (oy + jy), x, y, z.
  fold f in Hp. fold n in Ex, Ey, Ez. cbn [fst snd].
  assert (Hn : 0 <= n).
  { unfold n. change 0 with (inject_Z 0). rewrite <- Zle_Qle. lia. }
  pose proof (scale_between n vy 0.05 0.15 Hn) as Ay.
  pose proof (scale_between n vx (-0.05) 0.05 Hn) as Ax.
  pose proof (scale_between n vz (-0.05) 0.05 Hn) as Az.
  split; [exact Dx | split; [exact Dy|]].
  split; [lra | split; [lra|]].
  split; [exact Hp|].
  rewrite Ex, Ey, Ez.
  generalize dependent (n * vy). generalize dependent (n * vx).
  generalize dependent (n * vz). intros.
  repeat split; lra.
Qed.

(* ================================================================= *)
(** ** What a bead keeps *)

Lemma mapi_from_config props state (ls : list Letter) : forall i,
  map config (mapi_from (Bead_letter props state) i ls) = map config ls.
Proof.
  induction ls as [|l ls IH]; intros i; cbn [mapi_from map].
  - reflexivity.
  - rewrite Bead_letter_config, IH. reflexivity.
Qed.

(** What holds of a bead after a frame if it held before holds after a run. *)
Lemma Bead_frames_invariant (P : Bead -> Prop) :
  (forall f b, P b -> P (fst (Bead_frame f b))) ->
  forall fs b, P b -> P (fst (Bead_frames fs b)).
Proof.
  intros Hstep fs b Hb. unfold Bead_frames.
  assert (G : forall (acc : Bead * list THREE.Vector3.t),
            P (fst acc) ->
            P (fst (fold_left
                      (fun acc f =>
                         let r := Bead_frame f (fst acc) in
                         (fst r, snd acc ++ match snd r with Some o => [o] | None => [] end))
                      fs acc))).
  { induction fs as [|f fs IH]; intros acc Hacc.
    - exact Hacc.
    - cbn [fold_left]. apply IH. cbn [fst]. apply Hstep. exact Hacc. }
  apply (G (b, [])). exact Hb.
Qed.

(** X12.  A bead keeps its glyphs.  Mounted with its 24 configs, after any run of
    frames with any props a bead still has exactly LETTERS_PER_BEAD glyphs,
    each with the config (glyph, rest position, rest rotation) it was mounted
    with, every rest position is finite, and the bead's group is still at its
    ring position. *)
Theorem bead_keeps_its_glyphs :
  forall (position : THREE.Vector3.t) (draws : nat -> ConfigDraws) (fs : list BeadFrame),
    let b := fst (Bead_frames fs (Bead_mount position draws)) in
    List.length b.(letters) = LETTERS_PER_BEAD
    /\ map config b.(letters) = letterConfigs draws
    /\ Forall (fun l => exists p : Q * Q * Q, l.(config).(pos) = fin3 p) b.(letters)
    /\ b.(groupRef).(Object3D.position) = position.
Proof.
  intros position draws fs b.
  assert (H : map config b.(letters) = letterConfigs draws
              /\ b.(groupRef).(Object3D.position) = position).
  { unfold b.
    apply (Bead_frames_invariant
             (fun b => map config b.(letters) = letterConfigs draws
                       /\ b.(groupRef).(Object3D.position) = position)).
    - intros f b0 [Hc Hp]. unfold Bead_frame, Bead_useFrame. cbn [fst letters groupRef].
      rewrite mapi_from_config. split; [exact Hc | exact Hp].
    - unfold Bead_mount. cbn [letters groupRef Object3D.position].
      rewrite map_map. split; [|reflexivity].
      rewrite <- (map_id (letterConfigs draws)) at 2. reflexivity. }
  destruct H as [Hc Hp].
  assert (Hlen : List.length b.(letters) = LETTERS_PER_BEAD).
  { rewrite <- (length_map config), Hc. unfold letterConfigs.
    rewrite length_map, length_seq. reflexivity. }
  split; [exact Hlen | split; [exact Hc | split; [|exact Hp]]].
  apply Forall_forall. intros l Hin.
  assert (Hin' : In l.(config) (letterConfigs draws)).
  { rewrite <- Hc. apply in_map. exact Hin. }
  unfold letterConfigs in Hin'. apply in_map_iff in Hin' as (i & <- & _).
  apply getPointOnSphere_finite.
Qed.

Lemma Bead_rotate_ratio props g :
  g.(Object3D.rotation).(THREE.Euler.x)
  =n= (2 * g.(Object3D.rotation).(THREE.Euler.y))%num ->
  (Bead_rotate props g).(Object3D.rotation).(THREE.Euler.x)
  =n= (2 * (Bead_rotate props g).(Object3D.rotation).(THREE.Euler.y))%num.
Proof.
  clear Math_sin Math_sqrt Math_cos.
  unfold Bead_rotate. cbn [Object3D.rotation THREE.Euler.x THREE.Euler.y].
  destruct (THREE.Euler.x (Object3D.rotation g)) as [x|],
           (THREE.Euler.y (Object3D.rotation g)) as [y|],
           (BeadProps.rotationVal props) as [v|];
    cbv [JS.add JS.mul JS.lift2 JS.eqv]; try tauto.
  intros H. rewrite H. ring.
Qed.

(** X13.  The body of a bead turns about x twice as much as about y, and never
    about z: after any run of frames from the mount, whatever speeds it was
    handed, rotation.x = 2 x rotation.y and rotation.z = 0. *)
Theorem bead_body_turns_twice_as_much_about_x :
  forall (position : THREE.Vector3.t) (draws : nat -> ConfigDraws) (fs : list BeadFrame),
    let g := (fst (Bead_frames fs (Bead_mount position draws))).(groupRef) in
    g.(Object3D.rotation).(THREE.Euler.x)
    =n= (2 * g.(Object3D.rotation).(THREE.Euler.y))%num
    /\ g.(Object3D.rotation).(THREE.Euler.z) = JS.Fin 0.
Proof.
  intros position draws fs g. unfold g.
  apply (Bead_frames_invariant
           (fun b => b.(groupRef).(Object3D.rotation).(THREE.Euler.x)
                     =n= (2 * b.(groupRef).(Object3D.rotation).(THREE.Euler.y))%num
                     /\ b.(groupRef).(Object3D.rotation).(THREE.Euler.z) = JS.Fin 0)).
  - intros f b [Hr Hz]. unfold Bead_frame, Bead_useFrame. cbn [fst groupRef].
    split; [apply Bead_rotate_ratio; exact Hr | exact Hz].
  - split; [vm_compute; reflexivity | reflexivity].
Qed.

(** With a finite rest position and at a finite time, a glyph that is handed
    the intensity 0 while still scattered (the hand went away after the
    scatter flag was set) heads for its rest position, with the scatter
    factor 0.1. *)
Lemma Bead_letter_scattered_without_intensity props (t : Q) i l (rest : Q * Q * Q) :
  props.(BeadProps.isScattered) = true ->
  props.(BeadProps.scatterIntensity) = JS.Fin 0 ->
  l.(config).(pos) = fin3 rest ->
  (Bead_letter props {| clock_elapsedTime := t |} i l).(child).(Object3D.position)
  =v= smooth3 l.(child).(Object3D.position) (fin3 rest) 0.1.
Proof.
  intros Hs Hi Hrest. unfold Bead_letter. rewrite Hs, Hi, Hrest.
  cbn [child Object3D.position clock_elapsedTime].
  destruct (normalize_finite rest) as ([[n1 n2] n3] & ->).
  destruct rest as [[a b] c].
  unfold THREE.Vector3.eqv, THREE.Vector3.lerp, smooth3, smooth, fin3;
    cbn [THREE.Vector3.x THREE.Vector3.y THREE.Vector3.z fst snd].
  destruct (THREE.Vector3.x (Object3D.position (child l))) as [x|],
           (THREE.Vector3.y (Object3D.position (child l))) as [y|],
           (THREE.Vector3.z (Object3D.position (child l))) as [z|];
    cbv [JS.add JS.sub JS.mul JS.lift2 JS.eqv sin of_index];
    repeat split; try exact I; ring.
Qed.

(** X14.  A hand that goes away in the middle of a scatter.  The render after the
    hand is lost reads the scatter flag as the last frame left it and hands
    the intensity 0: a still scattered glyph with a finite rest position then
    makes one smoothing step of factor 0.1 toward its rest position. *)
Theorem lost_hand_pulls_scattered_glyphs_home :
  forall (s : DigitalBracelet) (d : JS.num) (position : THREE.Vector3.t) (index : nat)
         (t : Q) (i : nat) (l : Letter) (rest : Q * Q * Q),
    s.(isScatteredRef) = true ->
    l.(config).(pos) = fin3 rest ->
    (Bead_letter (DigitalBracelet_render_Bead (absent d) s position index)
       {| clock_elapsedTime := t |} i l).(child).(Object3D.position)
    =v= smooth3 l.(child).(Object3D.position) (fin3 rest) 0.1.
Proof.
  intros s d position index t i l rest Hs Hrest.
  apply Bead_letter_scattered_without_intensity; [exact Hs | reflexivity | exact Hrest].
Qed.

(* ================================================================= *)
(** ** The prediction loop of App *)

Lemma predict_handless ready st :
  predict ready [] st
  = (if ready
     then {| App.handDistance := st.(App.handDistance); App.isHandPresent := false |}
     else st,
     next_frame).
Proof. destruct ready; reflexivity. Qed.

(** X15.  As long as the tracker sees no hand, the loop never throws, the distance
    stays the last one measured, and the presence flag is false from the first
    turn that passes the guard on; from the state App starts with nothing
    changes at all, and the bracelet rendered with it has no hand: its frames
    are idle ones and its beads are handed the intensity 0. *)
Theorem handless_turns_keep_the_distance :
  forall (turns : list Turn) (st : App.t),
    handless turns = true ->
    let st' := predict_turns turns st in
    st'.(App.handDistance) = st.(App.handDistance)
    /\ (existsb fst turns = true -> st'.(App.isHandPresent) = false)
    /\ (existsb fst turns = false -> st' = st)
    /\ predict_turns turns App_mount = App_mount
    /\ gesture_of (App_render (predict_turns turns App_mount)) = NoHand
    /\ forall (s : DigitalBracelet) (position : THREE.Vector3.t) (index : nat),
         (DigitalBracelet_render_Bead (App_render (predict_turns turns App_mount))
            s position index).(BeadProps.scatterIntensity) = JS.Fin 0.
Proof.
  intros turns st Hh.
  assert (G : forall st0 : App.t,
            (predict_turns turns st0).(App.handDistance) = st0.(App.handDistance)
            /\ (existsb fst turns = true ->
                (predict_turns turns st0).(App.isHandPresent) = false)
            /\ (existsb fst turns = false -> predict_turns turns st0 = st0)
            /\ (st0.(App.isHandPresent) = false ->
                (predict_turns turns st0).(App.isHandPresent) = false)).
  { induction turns as [|[ready lms] turns IH]; intros st0.
    - repeat split; try reflexivity; try discriminate; auto.
    - cbn [handless forallb snd] in Hh. destruct lms as [|hand lms]; [|discriminate].
      cbn [andb] in Hh. specialize (IH Hh).
      cbn [predict_turns fold_left fst snd existsb]. rewrite predict_handless. cbn [fst].
      fold (predict_turns turns
              (if ready
               then {| App.handDistance := App.handDistance st0; App.isHandPresent := false |}
               else st0)).
      destruct ready; cbn [orb].
      + destruct (IH {| App.handDistance := App.handDistance st0;
                        App.isHandPresent := false |}) as (Hd & _ & _ & Hp).
        repeat split; [exact Hd | intros _; apply Hp; reflexivity | discriminate
                      | intros _; apply Hp; reflexivity].
      + exact (IH st0). }
  destruct (G st) as (Hd & Hp & Hs & _).
  assert (E : predict_turns turns App_mount = App_mount).
  { destruct (G App_mount) as (Hd0 & _ & _ & Hp0).
    specialize (Hp0 eq_refl).
    destruct (predict_turns turns App_mount) as [d0 p0].
    cbn [App.handDistance App.isHandPresent] in *. subst. reflexivity. }
  cbv zeta. rewrite E.
  repeat split; assumption || reflexivity.
Qed.

(** X16.  With a hand whose thumb tip (landmark 4) and index tip (landmark 8) have
    finite x and y, the loop sets the presence flag and the distance
    sqrt((tx - ix)^2 + (ty - iy)^2): a finite number, never NaN, that depends
    neither on the landmarks' z, nor on further hands, nor on the state
    before. *)
Theorem predict_measures_thumb_to_index :
  forall (hand : list Landmark) (others : list (list Landmark)) (st : App.t)
         (tx ty ix iy : Q) (tz iz : JS.num),
    nth_error hand 4 = Some {| lm_x := tx; lm_y := ty; lm_z := tz |} ->
    nth_error hand 8 = Some {| lm_x := ix; lm_y := iy; lm_z := iz |} ->
    predict true (hand :: others) st
    = ({| App.handDistance :=
            JS.Fin (Math_sqrt ((tx - ix) * (tx - ix) + (ty - iy) * (ty - iy)));
          App.isHandPresent := true |},
       next_frame).
Proof.
  intros hand others st tx ty ix iy tz iz H4 H8.
  unfold predict. rewrite H4, H8. cbn [lm_x lm_y].
  cbv [pow2 JS.add JS.sub JS.mul JS.lift2 THREE.Vector3.sqrt].
  assert (E : JS.Qltb ((tx - ix) * (tx - ix) + (ty - iy) * (ty - iy)) 0 = false).
  { apply Qltb_ge.
    pose proof (square_nonneg (tx - ix)). pose proof (square_nonneg (ty - iy)). lra. }
  rewrite E. reflexivity.
Qed.

(** X17.  A first hand with fewer than nine landmarks makes the turn throw: the
    presence flag is already set, the distance is the one before, and the
    next animation frame is not requested, so the loop has stopped. *)
Theorem predict_short_hand_throws :
  forall (hand : list Landmark) (others : list (list Landmark)) (st : App.t),
    (List.length hand <= 8)%nat ->
    predict true (hand :: others) st
    = ({| App.handDistance := st.(App.handDistance); App.isHandPresent := true |},
       thrown).
Proof.
  intros hand others st Hlen. unfold predict.
  assert (H8 : nth_error hand 8 = None) by (apply nth_error_None; exact Hlen).
  rewrite H8. destruct (nth_error hand 4); reflexivity.
Qed.

(** X18.  The overlay and the bracelet read the same thresholds: the "Open Hand"
    hint is lit exactly when the bracelet's next frame scatters, the "Pinch"
    hint exactly when that frame takes the pinch branch, and never both, for
    every distance, NaN included. *)
Theorem overlay_hints_agree_with_the_bracelet :
  forall (st : App.t) (state : RootState) (delta : JS.num) (s : DigitalBracelet),
    let s' := DigitalBracelet_useFrame (App_render st) state delta s in
    open_hint st = s'.(isScatteredRef)
    /\ open_hint st = Gesture_eqb (gesture_of (App_render st)) OpenHand
    /\ pinch_hint st = Gesture_eqb (gesture_of (App_render st)) Pinch
    /\ open_hint st && pinch_hint st = false.
Proof.
  intros [d p] state delta s. cbv zeta.
  unfold open_hint, pinch_hint, gesture_of, App_render, DigitalBracelet_useFrame,
    SCATTER_THRESHOLD, PINCH_THRESHOLD;
    cbn [App.handDistance App.isHandPresent BraceletSceneProps.handDistance
         BraceletSceneProps.isHandPresent].
  destruct d as [q|]; [|destruct p; repeat split].
  unfold JS.gt, JS.lt.
  destruct (JS.Qltb 0.18 q) eqn:G, (JS.Qltb q 0.06) eqn:L, p;
    cbn; repeat split; try reflexivity.
  all: apply Qltb_lt in G; apply Qltb_lt in L; lra.
Qed.


End Components.

(* ================================================================= *)
(** ** The theorems at concrete inputs *)

(** The four branches of the mapper, from the mounted state and from a speed
    of 1. *)
Example mapper_open_hand :
  let s := DigitalBracelet_useFrame (present 0.2) {| clock_elapsedTime := 0 |}
             (1 / 60) DigitalBracelet_mount in
  s.(isScatteredRef) = true /\ s.(rotationSpeedRef) =n= 0.
Proof. split; vm_compute; reflexivity. Qed.

Example mapper_pinch :
  let s := DigitalBracelet_useFrame (present 0.03) {| clock_elapsedTime := 0 |}
             (1 / 60) DigitalBracelet_mount in
  s.(isScatteredRef) = false /\ s.(rotationSpeedRef) =n= 0.1
  /\ s.(containerRef_rotation_z) =n= (0.1 * (1 / 60) * 0.5)%Q.
Proof. repeat split; vm_compute; reflexivity. Qed.

Example mapper_in_between :
  let s := DigitalBracelet_useFrame (present 0.1) {| clock_elapsedTime := 0 |} (1 / 60)
             {| isScatteredRef := true; rotationSpeedRef := 1;
                containerRef_rotation_z := 0; backgroundLetters := [] |} in
  s.(isScatteredRef) = false /\ s.(rotationSpeedRef) =n= 0.95.
Proof. split; vm_compute; reflexivity. Qed.

Example mapper_no_hand :
  let s := DigitalBracelet_useFrame (absent 0.5) {| clock_elapsedTime := 0 |} (1 / 60)
             {| isScatteredRef := true; rotationSpeedRef := 1;
                containerRef_rotation_z := 0; backgroundLetters := [] |} in
  s.(isScatteredRef) = false /\ s.(rotationSpeedRef) =n= 0.96.
Proof. split; vm_compute; reflexivity. Qed.

(** The thresholds are strict: a distance of exactly 0.18 or 0.06 is in
    between. *)
Example mapper_at_the_thresholds :
  (DigitalBracelet_useFrame (present 0.18) {| clock_elapsedTime := 0 |} 0
     DigitalBracelet_mount).(isScatteredRef) = false
  /\ (DigitalBracelet_useFrame (present 0.06) {| clock_elapsedTime := 0 |} 0
        {| isScatteredRef := false; rotationSpeedRef := 1;
           containerRef_rotation_z := 0; backgroundLetters := [] |}).(rotationSpeedRef)
     =n= 0.95.
Proof. split; vm_compute; reflexivity. Qed.

(** The speed after the idle second, about 0.157. *)
Example idle_second_speed :
  let r := (DigitalBracelet_frames idle_second DigitalBracelet_mount).(rotationSpeedRef) in
  (r >? 0.157)%num && (r <? 0.158)%num = true.
Proof. vm_compute. reflexivity. Qed.

(** Below the gate, scattered, or too soon after the last emission: no
    letter, and [lastEmitRef] stays. *)
Example no_emission_cases :
  Bead_emit (letter_props false 0) {| clock_elapsedTime := 100 |} origin0 0 = (None, JS.Fin 0)
  /\ Bead_emit
       {| BeadProps.position := origin0; BeadProps.rotationVal := 2;
          BeadProps.isScattered := true; BeadProps.scatterIntensity := 1;
          BeadProps.index := 0%nat; BeadProps.globalRotation := 0 |}
       {| clock_elapsedTime := 100 |} origin0 0 = (None, JS.Fin 0)
  /\ Bead_emit
       {| BeadProps.position := origin0; BeadProps.rotationVal := 2;
          BeadProps.isScattered := false; BeadProps.scatterIntensity := 0;
          BeadProps.index := 0%nat; BeadProps.globalRotation := 0 |}
       {| clock_elapsedTime := 1.04 |} origin0 1 = (None, JS.Fin 1)
  /\ Bead_emit
       {| BeadProps.position := origin0; BeadProps.rotationVal := 2;
          BeadProps.isScattered := false; BeadProps.scatterIntensity := 0;
          BeadProps.index := 0%nat; BeadProps.globalRotation := 0 |}
       {| clock_elapsedTime := 1.05 |} origin0 1 = (Some origin0, JS.Fin 1.05).
Proof. repeat split; vm_compute; reflexivity. Qed.

(** Forty emissions after the ambient batch: the pool holds 81 letters and the
    ambient letters 0 to 8 are gone. *)
Example pool_evicts_ambient_letters :
  let pool := emissions (repeat (origin0, 0%Z, half_draws) 40)
                (initialBg (fun _ => {| a_char := 0.5; a_x := 0.5; a_y := 0.5; a_z := 0.5;
                                        a_speedX := 0.5; a_speedY := 0.5; a_speedZ := 0.5;
                                        a_scale := 0.5 |})) in
  List.length pool = 81%nat
  /\ option_map Types.id (hd_error pool) = Some (Types.init 9).
Proof. split; vm_compute; reflexivity. Qed.

(** A glyph scattered for one frame and reforming for four is within 0.3 of
    its rest position. *)
Example glyph_round_trip :
  within 0.3
    (Bead_letter_frames sin_approx sqrt_approx
       (map scatter_frame [(1, 0)]
        ++ map reform_frame (repeat (JS.NaN, {| clock_elapsedTime := 1 |}) 4)) 0
       (Letter_mount {| config_char := Some "A"%char;
                        pos := fin3 (0.6, 0, 0);
                        rot := {| THREE.Euler.x := 0; THREE.Euler.y := 0;
                                  THREE.Euler.z := 0 |} |}))
      .(child).(Object3D.position)
    (0.6, 0, 0).
Proof. vm_compute. reflexivity. Qed.

(** C5 at a concrete input: the idle second. *)
Lemma C5_idle_spin_passes_the_emission_gate_witness :
  let s := DigitalBracelet_frames idle_second DigitalBracelet_mount in
  s.(isScatteredRef) = false
  /\ exists r : Q,
       s.(rotationSpeedRef) = JS.Fin r
       /\ 0.01 < r < 0.2
       /\ forall (d : JS.num) (position : THREE.Vector3.t) (index : nat)
                 (now l : Q) (worldPos : THREE.Vector3.t),
            emission_interval r < now - l ->
            Bead_emit (DigitalBracelet_render_Bead (absent d) s position index)
              {| clock_elapsedTime := now |} worldPos l
            = (Some worldPos, JS.Fin now).
Proof.
  apply (C5_idle_spin_passes_the_emission_gate idle_second).
  - reflexivity.
  - cbv. lia.
Defined.

(** C6 at a concrete input.  An open hand (distance 0.5) scatters the
    bracelet; the next render carries a NaN distance while the scatter ref
    still reads true, and the glyph at (0.6, 0, 0) is at NaN after the bead's
    frame.  A distance of -0.5 is taken for a pinch. *)
Lemma C6_malformed_distance_is_not_clamped_witness :
  let state := {| clock_elapsedTime := 1 |} in
  let s := DigitalBracelet_useFrame (present 0.5) state (1 / 60) DigitalBracelet_mount in
  let props := DigitalBracelet_render_Bead (present JS.NaN) s origin0 0 in
  let l := Letter_mount {| config_char := Some "A"%char;
                           pos := fin3 (0.6, 0, 0);
                           rot := {| THREE.Euler.x := 0; THREE.Euler.y := 0;
                                     THREE.Euler.z := 0 |} |} in
  (Bead_letter sin_approx sqrt_approx props state 0 l).(child).(Object3D.position)
  = {| THREE.Vector3.x := JS.NaN; THREE.Vector3.y := JS.NaN; THREE.Vector3.z := JS.NaN |}
  /\ (let s' := DigitalBracelet_useFrame (present (-0.5)) state (1 / 60) s in
      s'.(isScatteredRef) = false
      /\ s'.(rotationSpeedRef) =n= smooth s.(rotationSpeedRef) 2.0 0.05
      /\ JS.isNaN s'.(rotationSpeedRef) = JS.isNaN s.(rotationSpeedRef)).
Proof.
  intros state s props l.
  pose proof (C6_malformed_distance_is_not_clamped sin_approx sqrt_approx s state (1 / 60))
    as (_ & Hneg & _ & _ & Hnan).
  split.
  - apply Hnan; reflexivity.
  - apply (Hneg (-0.5)). reflexivity.
Defined.


(* ================================================================= *)
(** ** Beads between two renders *)




(* ================================================================= *)
(** ** Further properties at concrete inputs *)

(** A sustained pinch from the mounted bracelet, to within a hundredth. *)
Lemma sustained_gesture_converges_witness :
  exists N : nat,
    forall fs : list FrameInput,
      sustained Pinch fs = true ->
      (N <= List.length fs)%nat ->
      exists r : Q,
        (DigitalBracelet_frames fs DigitalBracelet_mount).(rotationSpeedRef) = JS.Fin r
        /\ - 0.01 < r - gesture_target Pinch < 0.01.
Proof.
  apply (sustained_gesture_converges Pinch DigitalBracelet_mount 0 0.01);
    [reflexivity | lra].
Defined.

(** The idle second, from the mounted bracelet. *)
Lemma sustained_gesture_never_overshoots_witness :
  exists r : Q,
    (DigitalBracelet_frames idle_second DigitalBracelet_mount).(rotationSpeedRef)
    = JS.Fin r
    /\ (0 <= gesture_target NoHand -> 0 <= r <= gesture_target NoHand)
    /\ (gesture_target NoHand <= 0 -> gesture_target NoHand <= r <= 0).
Proof.
  apply (sustained_gesture_never_overshoots NoHand idle_second DigitalBracelet_mount 0);
    reflexivity.
Defined.

Lemma ring_turns_forward_at_most_a_radian_per_second_witness :
  exists z t : Q,
    (DigitalBracelet_frames idle_second DigitalBracelet_mount).(containerRef_rotation_z)
    = JS.Fin z
    /\ elapsed idle_second = JS.Fin t
    /\ 0 <= z <= t.
Proof.
  apply (ring_turns_forward_at_most_a_radian_per_second idle_second). reflexivity.
Defined.

(** A bead at speed 2.0 that emits at 1.05 s after an emission at 1 s. *)
Lemma bead_emissions_are_spaced_witness : (10 # 201) < 1.05 - 1.
Proof.
  apply (bead_emissions_are_spaced
           {| BeadProps.position := origin0; BeadProps.rotationVal := 2;
              BeadProps.isScattered := false; BeadProps.scatterIntensity := 0;
              BeadProps.index := 0%nat; BeadProps.globalRotation := 0 |}
           {| clock_elapsedTime := 1.05 |} origin0 2 1.05 1).
  - reflexivity.
  - discriminate.
  - reflexivity.
  - vm_compute. reflexivity.
Defined.

Lemma ambient_letters_are_gone_after_81_emissions_witness :
  Forall (fun l => exists (Date_now : Z) (random : Q),
                     l.(Types.id) = Types.emit Date_now random)
    (emissions (repeat (origin0, 0%Z, half_draws) 81)
       (DigitalBracelet_useEffect (fun _ => half_ambient_draws) DigitalBracelet_mount)
         .(backgroundLetters)).
Proof.
  apply ambient_letters_are_gone_after_81_emissions.
  vm_compute. apply le_n.
Defined.

Lemma rnd_in_range_witness :
  in_closed_range (rnd 0.5 (-0.2) 0.2) (-0.2) 0.2 /\ rnd 0 (-0.2) 0.2 =n= (-0.2)%Q.
Proof. apply (rnd_in_range 0.5 (-0.2) 0.2); [reflexivity | cbv; reflexivity]. Defined.

Lemma random_char_is_defined_witness :
  exists c : ascii, random_char 0.5 = Some c /\ In c (list_ascii_of_string ALPHABET).
Proof. apply random_char_is_defined. reflexivity. Defined.

Lemma ambient_batch_is_behind_the_bracelet_witness :
  let batch := initialBg (fun _ => half_ambient_draws) in
  map Types.id batch = map Types.init (seq 0 50)
  /\ Forall (fun l =>
               l.(Types.char) <> None
               /\ in_range l.(Types.x) (-10) 10
               /\ in_range l.(Types.y) (-10) 10
               /\ in_range l.(Types.z) (-15) (-5)
               /\ in_range l.(Types.speedX) (-0.02) 0.02
               /\ in_range l.(Types.speedY) (-0.02) 0.02
               /\ in_range l.(Types.speedZ) (-0.01) 0.01
               /\ in_closed_range l.(Types.scale) 0.5 1.5)
       batch.
Proof.
  apply (ambient_batch_is_behind_the_bracelet (fun _ => half_ambient_draws)).
  intros i. reflexivity.
Defined.

(** Ten frames of a letter emitted from the ring position of bead 0. *)
Lemma emitted_letter_floats_up_witness :
  let data := newLetter (fin3 (3.5, 0, 0)) 0 half_draws in
  let fs := repeat (JS.Fin 0.2, {| clock_elapsedTime := 1 |}, JS.Fin (1 / 60)) 10 in
  let f := FloatingLetter_frames data fs (FloatingLetter_mount data) in
  let n := inject_Z (Z.of_nat (List.length fs)) in
  f.(fl_ref).(Object3D.position) = f.(fl_pos)
  /\ exists x0 y0 x y z : Q,
       data.(Types.x) = JS.Fin x0 /\ data.(Types.y) = JS.Fin y0
       /\ - 0.2 <= x0 - 3.5 <= 0.2 /\ - 0.2 <= y0 - 0 <= 0.2
       /\ f.(fl_pos) = fin3 (x, y, z)
       /\ y0 + 0.05 * n <= y <= y0 + 0.15 * n
       /\ - (0.05 * n) <= x - x0 <= 0.05 * n
       /\ - (0.05 * n) <= z - 0 <= 0.05 * n.
Proof.
  apply (emitted_letter_floats_up (3.5, 0, 0) 0 half_draws). reflexivity.
Defined.

(** An open hand scatters the bracelet; the hand goes away; the glyph at
    (0.6, 0, 0) heads home. *)
Lemma lost_hand_pulls_scattered_glyphs_home_witness :
  let s := DigitalBracelet_useFrame (present 0.5) {| clock_elapsedTime := 1 |} (1 / 60)
             DigitalBracelet_mount in
  let l := Letter_mount {| config_char := Some "A"%char;
                           pos := fin3 (0.6, 0, 0);
                           rot := {| THREE.Euler.x := 0; THREE.Euler.y := 0;
                                     THREE.Euler.z := 0 |} |} in
  (Bead_letter sin_approx sqrt_approx
     (DigitalBracelet_render_Bead (absent 0.5) s origin0 0)
     {| clock_elapsedTime := 1 |} 0 l).(child).(Object3D.position)
  =v= smooth3 l.(child).(Object3D.position) (fin3 (0.6, 0, 0)) 0.1.
Proof.
  intros s l.
  apply (lost_hand_pulls_scattered_glyphs_home sin_approx sqrt_approx s 0.5 origin0 0
           1 0 l (0.6, 0, 0)); reflexivity.
Defined.

Lemma predict_measures_thumb_to_index_witness :
  predict sqrt_approx true [sample_hand] App_mount
  = ({| App.handDistance :=
          JS.Fin (sqrt_approx ((0.40 - 0.43) * (0.40 - 0.43)
                               + (0.50 - 0.54) * (0.50 - 0.54)));
        App.isHandPresent := true |},
     next_frame).
Proof.
  apply (predict_measures_thumb_to_index sqrt_approx sample_hand [] App_mount
           0.40 0.50 0.43 0.54 0.1 (-0.1)); reflexivity.
Defined.

(** A hand with no landmark at all. *)
Lemma predict_short_hand_throws_witness :
  predict sqrt_approx true [[]] App_mount
  = ({| App.handDistance := 0.1; App.isHandPresent := true |}, thrown).
Proof.
  apply (predict_short_hand_throws sqrt_approx [] [] App_mount). apply le_0_n.
Defined.

(** The hand at 0.3 is lost: one turn before the video is ready, two after. *)
Lemma handless_turns_keep_the_distance_witness :
  let st := {| App.handDistance := 0.3; App.isHandPresent := true |} in
  let turns : list Turn := [(false, []); (true, []); (true, [])] in
  (predict_turns sqrt_approx turns st).(App.handDistance) = JS.Fin 0.3
  /\ (predict_turns sqrt_approx turns st).(App.isHandPresent) = false.
Proof.
  intros st turns.
  destruct (handless_turns_keep_the_distance sqrt_approx turns st eq_refl)
    as (Hd & Hp & _).
  split; [exact Hd | apply Hp; reflexivity].
Defined.

(* ================================================================= *)
(** ** Rounding *)

(** What the doubles of the source do where the exact numbers of the model
    differ: why the ranges above include their upper end and the approaches
    are stated for an epsilon of at least a billionth. *)
Module Rounding.
Import PrimFloat.
Set Warnings "-inexact-float".

(** [rnd(0.5, 1.5)] returns 1.5 for the largest draw. *)
Example rnd_reaches_max :
  Double.rnd Double.last_draw 0.5 1.5 = 1.5%float.
Proof. vm_compute. reflexivity. Qed.

(** A reforming glyph stalls about 3e-16 short of a rest coordinate of 0.6:
    from 2, 3000 frames end at 0.6000000000000003, which the step leaves
    where it is. *)
Example reform_stalls :
  let step x := Double.Vector3.lerp_x x 0.6 0.15 in
  Double.frames 3000 step 2%float = 0.6000000000000003%float
  /\ step 0.6000000000000003%float = 0.6000000000000003%float.
Proof. vm_compute. split; reflexivity. Qed.

(** A pinch held from speed 0 stalls at 1.999999999999998, and the idle spin
    at 0.19999999999999973. *)
Example speed_stalls :
  let pinch x := Double.MathUtils.lerp x 2.0 0.05 in
  let idle x := Double.MathUtils.lerp x 0.2 0.05 in
  Double.frames 3000 pinch 0%float = 1.999999999999998%float
  /\ pinch 1.999999999999998%float = 1.999999999999998%float
  /\ Double.frames 3000 idle 0%float = 0.19999999999999973%float
  /\ idle 0.19999999999999973%float = 0.19999999999999973%float.
Proof. vm_compute. repeat split; reflexivity. Qed.

End Rounding.
